(** * Contract analyser (Oppss.py): clause checker, text extraction, analysis run

    A shallow embedding of [src/Oppss.py].

    - Python [str] values are lists of Unicode code points ([N]); [bytes]
      values are lists of [Byte.byte].
    - A Python [dict] is an insertion-ordered association list; assignment
      [d[k] = v] is [dict_set].
    - A Python call either returns a value or raises: [result].
    - The standard-library pieces the program calls ([str.lower],
      [re.escape], [re.search], [bytes.decode], [str.join],
      [str.startswith]) are modelled after CPython; the Unicode character
      database is a parameter ([unicode_db]) outside the ASCII range.
    - The third-party collaborators (python-docx, PyPDF2, the completion
      service, the UI toolkit) are parameters of the sections that use
      them.
    - The start-up code of the module (the API key check and the client
      built from the key) is [run_script]. *)

From Stdlib Require Import NArith List String Ascii Bool Lia.
From stdpp Require Import base list.
Import ListNotations.

Set Warnings "-register-all".

Local Open Scope N_scope.
Local Open Scope list_scope.

(** ** Python values *)

Abbreviation str := (list N).
Abbreviation bytes := (list Byte.byte).

(** The code points of an ASCII literal. *)
Definition pystr (s : string) : str := map N_of_ascii (list_ascii_of_string s).
Definition pybytes (s : string) : bytes := list_byte_of_string s.
Definition ord (a : ascii) : N := N_of_ascii a.

Definition is_char (c : N) (a : ascii) : bool := c =? ord a.
Definition in_chars (c : N) (s : string) : bool := existsb (N.eqb c) (pystr s).

Fixpoint str_eqb (a b : str) : bool :=
  match a, b with
  | [], [] => true
  | x :: a', y :: b' => (x =? y) && str_eqb a' b'
  | _, _ => false
  end.

(** [s.startswith(p)] *)
Fixpoint startswith (s p : str) : bool :=
  match p, s with
  | [], _ => true
  | y :: p', x :: s' => (x =? y) && startswith s' p'
  | _ :: _, [] => false
  end.

Definition NEWLINE : str := [10].

(** [sep.join(parts)] *)
Fixpoint join (sep : str) (parts : list str) : str :=
  match parts with
  | [] => []
  | [p] => p
  | p :: rest => p ++ sep ++ join sep rest
  end.

(** Exceptions the modelled code can raise. *)
Inductive re_error_kind :=
  | bad_escape | nothing_to_repeat | multiple_repeat | missing_paren
  | unbalanced_paren | unterminated_set | bad_range | min_greater_max
  | repeat_overflow
  | unsupported_construct   (* pattern syntax outside the modelled fragment *)
  | out_of_fuel.            (* the parser model ran out of fuel *)

Inductive exn :=
  | re_error (k : re_error_kind)
  | UnicodeDecodeError
  | LibraryError (what : str)          (* raised inside python-docx / PyPDF2 *)
  | RemoteCallFailure (what : str).    (* raised inside the completion client *)

Inductive result (A : Type) :=
  | Return (a : A)
  | Raise (e : exn).
Arguments Return {A} a.
Arguments Raise {A} e.

#[global] Instance result_ret : MRet result := fun A a => Return a.
#[global] Instance result_bind : MBind result := fun A B f m =>
  match m with
  | Return a => f a
  | Raise e => Raise e
  end.

(** ** Insertion-ordered dictionaries *)

Abbreviation dict V := (list (str * V)).

Fixpoint dict_get {V} (d : dict V) (k : str) : option V :=
  match d with
  | [] => None
  | (k', v) :: d' => if str_eqb k' k then Some v else dict_get d' k
  end.

(** [d[k] = v]: overwrite in place when the key exists, append otherwise. *)
Fixpoint dict_set {V} (k : str) (v : V) (d : dict V) : dict V :=
  match d with
  | [] => [(k, v)]
  | (k', v') :: d' =>
      if str_eqb k' k then (k', v) :: d' else (k', v') :: dict_set k v d'
  end.

Definition keys {V} (d : dict V) : list str := map fst d.

(** ** Unicode character data *)

(** What CPython's Unicode database decides above U+007F.  Below it the
    answers are fixed and written out. *)
Record unicode_db := {
  db_lower : str -> str;        (* str.lower() of a string with a non-ASCII code point *)
  db_isalnum : N -> bool;       (* Py_UNICODE_ISALNUM *)
  db_isdecimal : N -> bool;     (* Py_UNICODE_ISDECIMAL *)
  db_isspace : N -> bool        (* Py_UNICODE_ISSPACE *)
}.

Definition is_ascii (c : N) : bool := c <? 128.
Definition in_range (lo hi c : N) : bool := (lo <=? c) && (c <=? hi).
Definition ascii_isupper (c : N) : bool := in_range 65 90 c.
Definition ascii_isalpha (c : N) : bool := in_range 65 90 c || in_range 97 122 c.
Definition ascii_isdigit (c : N) : bool := in_range 48 57 c.
Definition ascii_isalnum (c : N) : bool := ascii_isalpha c || ascii_isdigit c.
Definition ascii_isspace (c : N) : bool := in_range 9 13 c || in_range 28 32 c.
Definition ascii_lower (c : N) : N := if ascii_isupper c then c + 32 else c.

Section Unicode.
Variable U : unicode_db.

(** [s.lower()] *)
Definition str_lower (s : str) : str :=
  if forallb is_ascii s then map ascii_lower s else db_lower U s.

Definition uni_isalnum (c : N) : bool :=
  if is_ascii c then ascii_isalnum c else db_isalnum U c.
Definition uni_isdecimal (c : N) : bool :=
  if is_ascii c then ascii_isdigit c else db_isdecimal U c.
Definition uni_isspace (c : N) : bool :=
  if is_ascii c then ascii_isspace c else db_isspace U c.

(** [\w] of a [str] pattern: alphanumeric or underscore. *)
Definition is_word (c : N) : bool := uni_isalnum c || is_char c "_".
End Unicode.

(** ** [re.escape]

    CPython (3.7 and later): [pattern.translate(_special_chars_map)], where
    the map sends each of the characters below to a backslash followed by
    the character itself. *)

Definition SPECIAL_ESCAPED : str :=
  pystr "()[]{}?*+-|^$\.&~# " ++ [9; 10; 13; 11; 12].

Definition escape_special (c : N) : bool := existsb (N.eqb c) SPECIAL_ESCAPED.

Definition re_escape (pattern : str) : str :=
  flat_map (fun c => if escape_special c then [ord "\"; c] else [c]) pattern.

(** ** [re] patterns: syntax tree

    The parsed form follows [sre_parse]: a pattern is a list of items.  The
    modelled fragment has literals, [.], character sets, the escapes
    [\A \b \B \d \D \s \S \w \W \Z \a \f \n \r \t \v] and escaped
    punctuation, [^], [$], capturing groups, alternation, and the repeats
    [* + ? {m} {m,} {,n} {m,n}] with an optional lazy [?].  Extension
    groups [(?...)], numeric, hexadecimal and named escapes and possessive
    repeats are reported as [unsupported_construct]. *)

Inductive at_code :=
  | AT_BEGINNING | AT_END | AT_BEGINNING_STRING | AT_END_STRING
  | AT_BOUNDARY | AT_NON_BOUNDARY.

Inductive category := CATEGORY_DIGIT | CATEGORY_SPACE | CATEGORY_WORD.

Inductive set_item :=
  | SET_LITERAL (c : N)
  | SET_RANGE (lo hi : N)
  | SET_CATEGORY (negated : bool) (cat : category).

Inductive regex :=
  | LITERAL (c : N)
  | ANY
  | IN (negate : bool) (items : list set_item)
  | AT (a : at_code)
  | REPEAT (lo : N) (hi : option N) (item : regex)
  | SUBPATTERN (p : list regex)
  | BRANCH (alts : list (list regex)).

(** ** [re] patterns: parser *)

Definition SPECIAL_CHARS : string := ".\[{()*+?^$|".
Definition REPEAT_CHARS : string := "*+?{".
Definition MAXREPEAT : N := 4294967295.

Definition in_category (negated : bool) (cat : category) : regex :=
  IN false [SET_CATEGORY negated cat].

(** [_escape]: the item for backslash followed by [e], outside a set. *)
Definition escape_code (e : N) : result regex :=
  if is_char e "A" then Return (AT AT_BEGINNING_STRING)
  else if is_char e "b" then Return (AT AT_BOUNDARY)
  else if is_char e "B" then Return (AT AT_NON_BOUNDARY)
  else if is_char e "d" then Return (in_category false CATEGORY_DIGIT)
  else if is_char e "D" then Return (in_category true CATEGORY_DIGIT)
  else if is_char e "s" then Return (in_category false CATEGORY_SPACE)
  else if is_char e "S" then Return (in_category true CATEGORY_SPACE)
  else if is_char e "w" then Return (in_category false CATEGORY_WORD)
  else if is_char e "W" then Return (in_category true CATEGORY_WORD)
  else if is_char e "Z" then Return (AT AT_END_STRING)
  else if is_char e "a" then Return (LITERAL 7)
  else if is_char e "f" then Return (LITERAL 12)
  else if is_char e "n" then Return (LITERAL 10)
  else if is_char e "r" then Return (LITERAL 13)
  else if is_char e "t" then Return (LITERAL 9)
  else if is_char e "v" then Return (LITERAL 11)
  else if is_char e "\" then Return (LITERAL (ord "\"))
  else if in_chars e "xuUN" || ascii_isdigit e then Raise (re_error unsupported_construct)
  else if ascii_isalpha e then Raise (re_error bad_escape)
  else Return (LITERAL e).

(** [_class_escape]: the set member for backslash followed by [e]. *)
Definition class_escape (e : N) : result set_item :=
  if is_char e "a" then Return (SET_LITERAL 7)
  else if is_char e "b" then Return (SET_LITERAL 8)
  else if is_char e "f" then Return (SET_LITERAL 12)
  else if is_char e "n" then Return (SET_LITERAL 10)
  else if is_char e "r" then Return (SET_LITERAL 13)
  else if is_char e "t" then Return (SET_LITERAL 9)
  else if is_char e "v" then Return (SET_LITERAL 11)
  else if is_char e "\" then Return (SET_LITERAL (ord "\"))
  else if is_char e "d" then Return (SET_CATEGORY false CATEGORY_DIGIT)
  else if is_char e "D" then Return (SET_CATEGORY true CATEGORY_DIGIT)
  else if is_char e "s" then Return (SET_CATEGORY false CATEGORY_SPACE)
  else if is_char e "S" then Return (SET_CATEGORY true CATEGORY_SPACE)
  else if is_char e "w" then Return (SET_CATEGORY false CATEGORY_WORD)
  else if is_char e "W" then Return (SET_CATEGORY true CATEGORY_WORD)
  else if in_chars e "xuUN" || ascii_isdigit e then Raise (re_error unsupported_construct)
  else if ascii_isalpha e then Raise (re_error bad_escape)
  else Return (SET_LITERAL e).

(** One member of a set: a plain character or an escape. *)
Definition set_member (s : str) : result (set_item * str) :=
  match s with
  | [] => Raise (re_error unterminated_set)
  | c :: s1 =>
      if is_char c "\" then
        match s1 with
        | [] => Raise (re_error bad_escape)
        | e :: s2 => code ← class_escape e; Return (code, s2)
        end
      else Return (SET_LITERAL c, s1)
  end.

(** The body of [[...]] after the optional [^]; [acc] holds the members read
    so far, most recent first. *)
Fixpoint parse_set (fuel : nat) (s : str) (acc : list set_item)
    : result (list set_item * str) :=
  match fuel with
  | O => Raise (re_error out_of_fuel)
  | S f =>
      match s with
      | [] => Raise (re_error unterminated_set)
      | c :: s1 =>
          if is_char c "]" && negb (match acc with [] => true | _ => false end)
          then Return (rev acc, s1)
          else
            '(code1, s2) ← set_member s;
            match s2 with
            | d :: s3 =>
                if is_char d "-" then
                  match s3 with
                  | [] => Raise (re_error unterminated_set)
                  | t :: s4 =>
                      if is_char t "]"
                      then Return (rev (SET_LITERAL (ord "-") :: code1 :: acc), s4)
                      else
                        '(code2, s5) ← set_member s3;
                        match code1, code2 with
                        | SET_LITERAL lo, SET_LITERAL hi =>
                            if hi <? lo then Raise (re_error bad_range)
                            else parse_set f s5 (SET_RANGE lo hi :: acc)
                        | _, _ => Raise (re_error bad_range)
                        end
                  end
                else parse_set f s2 (code1 :: acc)
            | [] => parse_set f s2 (code1 :: acc)
            end
      end
  end.

(** [int(digits)] for a run of ASCII digits. *)
Definition int_of_digits (ds : str) : N :=
  fold_left (fun n d => 10 * n + (d - 48)) ds 0.

Fixpoint span_digits (s : str) : str * str :=
  match s with
  | c :: s' =>
      if ascii_isdigit c then let '(ds, r) := span_digits s' in (c :: ds, r)
      else ([], s)
  | [] => ([], [])
  end.

(** The bounds of a repeat that starts at the operator [c] (already
    consumed); [None] when [{] does not open a well-formed repeat and is a
    literal brace. *)
Definition repeat_bounds (c : N) (s1 : str)
    : result (option (N * option N * str)) :=
  if is_char c "?" then Return (Some (0, Some 1, s1))
  else if is_char c "*" then Return (Some (0, None, s1))
  else if is_char c "+" then Return (Some (1, None, s1))
  else
    match s1 with
    | d :: _ => if is_char d "}" then Return None else
        let '(lo, r1) := span_digits s1 in
        let '(hi, r2) :=
          match r1 with
          | x :: r1' => if is_char x "," then span_digits r1' else (lo, r1)
          | [] => (lo, r1)
          end in
        match r2 with
        | y :: r3 =>
            if is_char y "}" then
              let mn := match lo with [] => 0 | _ => int_of_digits lo end in
              let mx := match hi with [] => None | _ => Some (int_of_digits hi) end in
              if MAXREPEAT <=? mn then Raise (re_error repeat_overflow)
              else match mx with
                   | Some h =>
                       if MAXREPEAT <=? h then Raise (re_error repeat_overflow)
                       else if h <? mn then Raise (re_error min_greater_max)
                       else Return (Some (mn, mx, r3))
                   | None => Return (Some (mn, mx, r3))
                   end
            else Return None
        | [] => Return None
        end
    | [] => Return None
    end.

(** [_parse_sub] and [_parse].  [parse_alts] reads alternatives separated by
    [|]; [parse_items] reads the items of one alternative and stops in
    front of [|], [)] or the end.  [acc] holds the items read so far, most
    recent first. *)
Fixpoint parse_alts (fuel : nat) (s : str) : result (list (list regex) * str) :=
  match fuel with
  | O => Raise (re_error out_of_fuel)
  | S f =>
      '(items, rest) ← parse_items f s [];
      match rest with
      | c :: rest' =>
          if is_char c "|" then
            '(alts, rest'') ← parse_alts f rest';
            Return (items :: alts, rest'')
          else Return ([items], rest)
      | [] => Return ([items], rest)
      end
  end
with parse_items (fuel : nat) (s : str) (acc : list regex)
    : result (list regex * str) :=
  match fuel with
  | O => Raise (re_error out_of_fuel)
  | S f =>
      match s with
      | [] => Return (rev acc, [])
      | c :: s1 =>
          if in_chars c "|)" then Return (rev acc, s)
          else if is_char c "\" then
            match s1 with
            | [] => Raise (re_error bad_escape)
            | e :: s2 => code ← escape_code e; parse_items f s2 (code :: acc)
            end
          else if negb (in_chars c SPECIAL_CHARS) then
            parse_items f s1 (LITERAL c :: acc)
          else if is_char c "[" then
            let '(negate, s2) :=
              match s1 with
              | x :: s1' => if is_char x "^" then (true, s1') else (false, s1)
              | [] => (false, s1)
              end in
            '(items, s3) ← parse_set f s2 [];
            parse_items f s3 (IN negate items :: acc)
          else if in_chars c REPEAT_CHARS then
            bounds ← repeat_bounds c s1;
            match bounds with
            | None => parse_items f s1 (LITERAL c :: acc)
            | Some (lo, hi, s2) =>
                match acc with
                | [] => Raise (re_error nothing_to_repeat)
                | AT _ :: _ => Raise (re_error nothing_to_repeat)
                | REPEAT _ _ _ :: _ => Raise (re_error multiple_repeat)
                | item :: acc' =>
                    match s2 with
                    | q :: s3 =>
                        if is_char q "?" then parse_items f s3 (REPEAT lo hi item :: acc')
                        else if is_char q "+" then Raise (re_error unsupported_construct)
                        else parse_items f s2 (REPEAT lo hi item :: acc')
                    | [] => parse_items f s2 (REPEAT lo hi item :: acc')
                    end
                end
            end
          else if is_char c "." then parse_items f s1 (ANY :: acc)
          else if is_char c "(" then
            match s1 with
            | q :: _ =>
                if is_char q "?" then Raise (re_error unsupported_construct)
                else
                  '(alts, s2) ← parse_alts f s1;
                  match s2 with
                  | p :: s3 =>
                      if is_char p ")" then
                        parse_items f s3
                          (SUBPATTERN (match alts with [one] => one | _ => [BRANCH alts] end) :: acc)
                      else Raise (re_error missing_paren)
                  | [] => Raise (re_error missing_paren)
                  end
            | [] => Raise (re_error missing_paren)
            end
          else if is_char c "^" then parse_items f s1 (AT AT_BEGINNING :: acc)
          else if is_char c "$" then parse_items f s1 (AT AT_END :: acc)
          else Raise (re_error unsupported_construct)
      end
  end.

(** [sre_parse.parse]: the whole pattern must be consumed. *)
Definition parse (pattern : str) : result (list regex) :=
  '(alts, rest) ← parse_alts (2 * length pattern + 2) pattern;
  match rest with
  | [] => Return (match alts with [one] => one | _ => [BRANCH alts] end)
  | _ :: _ => Raise (re_error unbalanced_paren)
  end.

(** ** [re] patterns: matching

    A backtracking matcher in continuation-passing style.  The position in
    the subject is kept as the character just before it ([prev], [None] at
    the start of the string) and the rest of the subject. *)

Section Matching.
Variable U : unicode_db.

Definition in_cat (cat : category) (c : N) : bool :=
  match cat with
  | CATEGORY_DIGIT => uni_isdecimal U c
  | CATEGORY_SPACE => uni_isspace U c
  | CATEGORY_WORD => is_word U c
  end.

Definition set_item_matches (c : N) (it : set_item) : bool :=
  match it with
  | SET_LITERAL x => c =? x
  | SET_RANGE lo hi => in_range lo hi c
  | SET_CATEGORY negated cat => xorb negated (in_cat cat c)
  end.

(** Whether the character on one side of a position is a word character;
    the outside of the string counts as a non-word character. *)
Definition word_side (c : option N) : bool :=
  match c with
  | Some x => is_word U x
  | None => false
  end.

Definition at_holds (a : at_code) (prev : option N) (s : str) : bool :=
  match a with
  | AT_BEGINNING | AT_BEGINNING_STRING =>
      match prev with None => true | Some _ => false end
  | AT_END =>
      match s with [] => true | [c] => c =? 10 | _ => false end
  | AT_END_STRING =>
      match s with [] => true | _ => false end
  | AT_BOUNDARY => xorb (word_side prev) (word_side (head s))
  | AT_NON_BOUNDARY =>
      (* CPython up to 3.13: never holds in an empty subject *)
      match prev, s with
      | None, [] => false
      | _, _ => negb (xorb (word_side prev) (word_side (head s)))
      end
  end.

Definition decr (budget : option N) : option N :=
  match budget with
  | Some n => Some (N.pred n)
  | None => None
  end.

Definition exhausted (budget : option N) : bool :=
  match budget with
  | Some n => n =? 0
  | None => false
  end.

Fixpoint rmatch (r : regex) (prev : option N) (s : str)
    (k : option N -> str -> bool) {struct r} : bool :=
  let rmatch_seq :=
    fix rmatch_seq (rs : list regex) (prev : option N) (s : str)
        (k : option N -> str -> bool) {struct rs} : bool :=
      match rs with
      | [] => k prev s
      | r' :: rs' => rmatch r' prev s (fun p s' => rmatch_seq rs' p s' k)
      end in
  match r with
  | LITERAL c =>
      match s with
      | x :: s' => (x =? c) && k (Some x) s'
      | [] => false
      end
  | ANY =>
      match s with
      | x :: s' => negb (x =? 10) && k (Some x) s'
      | [] => false
      end
  | IN negate items =>
      match s with
      | x :: s' => xorb negate (existsb (set_item_matches x) items) && k (Some x) s'
      | [] => false
      end
  | AT a => at_holds a prev s && k prev s
  | REPEAT lo hi item =>
      (* [more]: further iterations, each consuming at least one character *)
      let more :=
        fix more (fuel : nat) (budget : option N) (prev : option N) (s : str)
            {struct fuel} : bool :=
          k prev s ||
          (negb (exhausted budget) &&
           match fuel with
           | O => false
           | S fuel' =>
               rmatch item prev s (fun p s' =>
                 (length s' <? length s)%nat && more fuel' (decr budget) p s')
           end) in
      (* [first]: the [lo] mandatory iterations *)
      let first :=
        fix first (n : nat) (prev : option N) (s : str) {struct n} : bool :=
          match n with
          | O => more (length s) (option_map (fun h => h - lo) hi) prev s
          | S n' => rmatch item prev s (fun p s' => first n' p s')
          end in
      first (N.to_nat lo) prev s
  | SUBPATTERN p => rmatch_seq p prev s k
  | BRANCH alts =>
      (fix any_alt (alts : list (list regex)) : bool :=
         match alts with
         | [] => false
         | alt :: alts' => rmatch_seq alt prev s k || any_alt alts'
         end) alts
  end.

Fixpoint rmatch_seq (rs : list regex) (prev : option N) (s : str)
    (k : option N -> str -> bool) : bool :=
  match rs with
  | [] => k prev s
  | r :: rs' => rmatch r prev s (fun p s' => rmatch_seq rs' p s' k)
  end.

(** Does the pattern match starting at the current position? *)
Definition match_here (p : list regex) (prev : option N) (s : str) : bool :=
  rmatch_seq p prev s (fun _ _ => true).

(** [search]: try every start position, left to right. *)
Fixpoint search_from (p : list regex) (prev : option N) (s : str) : bool :=
  match_here p prev s ||
  match s with
  | [] => false
  | c :: s' => search_from p (Some c) s'
  end.

(** [re.search(pattern, string)], as the truth value of its result. *)
Definition re_search (pattern : str) (string : str) : result bool :=
  p ← parse pattern; Return (search_from p None string).

(** ** The clause checker *)

(** [any(re.search(r"\b" + re.escape(keyword) + r"\b", text_lower)
         for keyword in keywords)]: stops at the first hit. *)
Fixpoint any_keyword (text_lower : str) (keywords : list str) : result bool :=
  match keywords with
  | [] => Return false
  | keyword :: rest =>
      found ← re_search (pystr "\b" ++ re_escape keyword ++ pystr "\b") text_lower;
      if (found : bool) then Return true else any_keyword text_lower rest
  end.

(** The loop of [check_clauses] over [clause_dict.items()]. *)
Fixpoint check_loop (text_lower : str) (items : dict (list str))
    (results : dict bool) : result (dict bool) :=
  match items with
  | [] => Return results
  | (clause, keywords) :: rest =>
      present ← any_keyword text_lower keywords;
      check_loop text_lower rest (dict_set clause present results)
  end.

Definition check_clauses (text : str) (clause_dict : dict (list str))
    : result (dict bool) :=
  let results := [] in
  let text_lower := str_lower U text in
  check_loop text_lower clause_dict results.
End Matching.

(** The two fixed taxonomies. *)
Definition commercial_clauses : dict (list str) :=
  [ (pystr "Payment Terms",
      [pystr "payment terms"; pystr "terms of payment"; pystr "payment schedule"]);
    (pystr "IP",
      [pystr "intellectual property"; pystr "IP rights"; pystr "ownership of work"]);
    (pystr "Delivery Terms",
      [pystr "delivery terms"; pystr "delivery schedule"; pystr "shipment terms"]);
    (pystr "Warranties and Representations",
      [pystr "warranties"; pystr "representations"; pystr "guarantees"]) ].

Definition legal_clauses : dict (list str) :=
  [ (pystr "Indemnification", [pystr "indemnification"; pystr "hold harmless"]);
    (pystr "Termination",
      [pystr "termination"; pystr "end of agreement"; pystr "contract termination"]);
    (pystr "Confidentiality",
      [pystr "confidentiality"; pystr "non-disclosure"; pystr "nda"]);
    (pystr "Limitation of Liability",
      [pystr "limitation of liability"; pystr "liability cap"; pystr "liability limit"]) ].

(** ** Text extraction *)

(** [bytes.decode("utf-8")] in strict mode: shortest-form sequences only, no
    surrogates, nothing above U+10FFFF. *)
Definition is_continuation (b : N) : bool := in_range 128 191 b.
Definition cont_bits (b : N) : N := b - 128.

Fixpoint utf8_code_points (bs : list N) : option str :=
  match bs with
  | [] => Some []
  | b0 :: r0 =>
      if b0 <? 128 then cons b0 <$> utf8_code_points r0
      else if in_range 194 223 b0 then
        match r0 with
        | b1 :: r1 =>
            if is_continuation b1
            then cons ((b0 - 192) * 64 + cont_bits b1) <$> utf8_code_points r1
            else None
        | _ => None
        end
      else if in_range 224 239 b0 then
        match r0 with
        | b1 :: b2 :: r2 =>
            if in_range (if b0 =? 224 then 160 else 128)
                        (if b0 =? 237 then 159 else 191) b1
               && is_continuation b2
            then cons ((b0 - 224) * 4096 + cont_bits b1 * 64 + cont_bits b2)
                   <$> utf8_code_points r2
            else None
        | _ => None
        end
      else if in_range 240 244 b0 then
        match r0 with
        | b1 :: b2 :: b3 :: r3 =>
            if in_range (if b0 =? 240 then 144 else 128)
                        (if b0 =? 244 then 143 else 191) b1
               && is_continuation b2 && is_continuation b3
            then cons ((b0 - 240) * 262144 + cont_bits b1 * 4096
                       + cont_bits b2 * 64 + cont_bits b3)
                   <$> utf8_code_points r3
            else None
        | _ => None
        end
      else None
  end.

Definition decode_utf8 (b : bytes) : result str :=
  match utf8_code_points (map Byte.to_N b) with
  | Some s => Return s
  | None => Raise UnicodeDecodeError
  end.

(** [StringIO(s).read()]: the default [newline] performs no translation. *)
Definition StringIO_read (s : str) : str := s.

(** The uploaded file as the program sees it. *)
Record UploadedFile := {
  type : str;          (* declared media type *)
  getvalue : bytes     (* content *)
}.

Definition DOCX_TYPE : str :=
  pystr "application/vnd.openxmlformats-officedocument.wordprocessingml.document".
Definition PDF_TYPE : str := pystr "application/pdf".

(** Python truthiness of an optional string: [None] and [""] are false. *)
Definition truthy (t : option str) : bool :=
  match t with
  | Some (_ :: _) => true
  | _ => false
  end.

(** The loop of [extract_text_from_pdf]: [text] is the list built so far. *)
Fixpoint pdf_loop (pages : list (option str)) (text : list str) : list str :=
  match pages with
  | [] => text
  | page_text :: rest =>
      if truthy page_text
      then pdf_loop rest (text ++ [default [] page_text])
      else pdf_loop rest text
  end.

Section Extraction.
(** python-docx: the [text] of each paragraph of [Document(file)], in
    document order, or the exception raised while reading. *)
Variable Document_paragraphs : UploadedFile -> result (list str).
(** PyPDF2: [page.extract_text()] of each page of [PdfReader(file)], in
    page order ([None] for an absent text), or the exception raised by the
    reader or by a page. *)
Variable PdfReader_pages : UploadedFile -> result (list (option str)).

Definition extract_text_from_docx (file : UploadedFile) : result str :=
  paragraphs ← Document_paragraphs file;
  Return (join NEWLINE paragraphs).

Definition extract_text_from_pdf (file : UploadedFile) : result str :=
  pages ← PdfReader_pages file;
  let text := pdf_loop pages [] in
  Return (join NEWLINE text).

(** [None] is Python's [None]. *)
Definition extract_text (file : UploadedFile) : result (option str) :=
  if str_eqb (type file) DOCX_TYPE then
    text ← extract_text_from_docx file; Return (Some text)
  else if str_eqb (type file) PDF_TYPE then
    text ← extract_text_from_pdf file; Return (Some text)
  else if startswith (type file) (pystr "text/") then
    stringio ← decode_utf8 (getvalue file);
    Return (Some (StringIO_read stringio))
  else Return None.
End Extraction.

(** ** The analysis run

    [main] talks to two things outside the program: the page it draws on
    and the completion service.  Both are kept in a [world]: the UI calls
    made so far and the requests sent so far.  An exception leaves the
    world as it was when it was raised. *)

Record request := {
  model : str;
  messages : list (str * str)     (* role, content *)
}.

Inductive ui_event :=
  | st_title (s : str)
  | st_spinner (s : str)
  | st_error (s : str)
  | st_subheader (s : str)
  | st_write (s : str)
  | st_markdown (s : str).

Record world := {
  shown : list ui_event;
  sent : list request
}.

Definition script (A : Type) : Type := world -> world * result A.

#[global] Instance script_ret : MRet script := fun A a w => (w, Return a).
#[global] Instance script_bind : MBind script := fun A B f m w =>
  match m w with
  | (w', Return a) => f a w'
  | (w', Raise e) => (w', Raise e)
  end.

Definition lift {A} (r : result A) : script A := fun w => (w, r).

Definition show (e : ui_event) : script unit :=
  fun w => ({| shown := shown w ++ [e]; sent := sent w |}, Return tt).

Fixpoint for_each {A} (l : list A) (body : A -> script unit) : script unit :=
  match l with
  | [] => mret tt
  | x :: rest => _ ← body x; for_each rest body
  end.

Definition GPT_MODEL : str := pystr "gpt-4o-mini".

Definition SUMMARY_PERSONA : str :=
  pystr "You're an exceptional lawyer skilled at distilling long contracts into short paragraphs that are easy to understand and digest.".

Definition summarize_request (document : str) : request :=
  {| model := GPT_MODEL;
     messages :=
       [ (pystr "system", SUMMARY_PERSONA);
         (pystr "user",
          pystr "Provide an executive summary for the following contract: " ++ document) ] |}.

Definition get_obligations_request (document : str) : request :=
  {| model := GPT_MODEL;
     messages :=
       [ (pystr "user",
          pystr "Highlight the key obligations from the following contract: " ++ document) ] |}.

Definition extract_important_dates_request (document : str) : request :=
  {| model := GPT_MODEL;
     messages :=
       [ (pystr "user",
          pystr "Find all important dates and deadlines in this contract: " ++ document) ] |}.

Definition extract_termination_clauses_request (document : str) : request :=
  {| model := GPT_MODEL;
     messages :=
       [ (pystr "user",
          pystr "Highlight the termination clauses in this contract: " ++ document) ] |}.

Definition highlight_confidentiality_noncompete_request (document : str) : request :=
  {| model := GPT_MODEL;
     messages :=
       [ (pystr "user",
          pystr "Identify confidentiality and non-compete clauses in this contract: " ++ document) ] |}.

(** UI texts; the pictographs are given by code point. *)
Definition TITLE : str := 128220 :: pystr " Contract Analyzer with Clause Checker".
Definition EXTRACT_ERROR : str := pystr "Unsupported file type or unable to extract text.".
Definition PREVIEW_HEADER : str := 128196 :: pystr " Contract Text Preview".
Definition PIN : N := 128204.
Definition YES : str := 9989 :: pystr " Yes".
Definition NO : str := 10060 :: pystr " No".

Definition preview (text : str) : str :=
  take 2000 text ++ (if (2000 <? length text)%nat then pystr "..." else []).

Definition clause_line (item : str * bool) : str :=
  let '(clause, exists_) := item in
  clause ++ pystr ": " ++ (if exists_ then YES else NO).

Section Main.
Variable U : unicode_db.
Variable Document_paragraphs : UploadedFile -> result (list str).
Variable PdfReader_pages : UploadedFile -> result (list (option str)).
(** [client.chat.completions.create(...)] followed by
    [response.choices[0].message.content]: the answer to a request, given
    the requests sent before it, or the exception raised on the way. *)
Variable completion : list request -> request -> result str.

Definition create (req : request) : script str :=
  fun w => ({| shown := shown w; sent := sent w ++ [req] |}, completion (sent w) req).

Definition summarize (document : str) : script str :=
  create (summarize_request document).
Definition get_obligations (document : str) : script str :=
  create (get_obligations_request document).
Definition extract_important_dates (document : str) : script str :=
  create (extract_important_dates_request document).
Definition extract_termination_clauses (document : str) : script str :=
  create (extract_termination_clauses_request document).
Definition highlight_confidentiality_noncompete (document : str) : script str :=
  create (highlight_confidentiality_noncompete_request document).

(** The body of [if st.button("Analyze Contract"):]. *)
Definition analyze (text : str) : script unit :=
  _ ← show (st_spinner (pystr "Analyzing..."));
  summary ← summarize text;
  obligations ← get_obligations text;
  dates ← extract_important_dates text;
  termination ← extract_termination_clauses text;
  confidentiality ← highlight_confidentiality_noncompete text;
  commercial_results ← lift (check_clauses U text commercial_clauses);
  legal_results ← lift (check_clauses U text legal_clauses);
  _ ← show (st_subheader (PIN :: pystr " Executive Summary"));
  _ ← show (st_write summary);
  _ ← show (st_subheader (PIN :: pystr " Key Obligations"));
  _ ← show (st_write obligations);
  _ ← show (st_subheader (PIN :: pystr " Important Dates / Deadlines"));
  _ ← show (st_write dates);
  _ ← show (st_subheader (PIN :: pystr " Termination Clauses"));
  _ ← show (st_write termination);
  _ ← show (st_subheader (PIN :: pystr " Confidentiality and Non-Compete Clauses"));
  _ ← show (st_write confidentiality);
  _ ← show (st_subheader (pystr "Clause Presence Checker"));
  _ ← show (st_markdown (pystr "###  Commercial Clauses " ++ [128722]));
  _ ← for_each commercial_results (fun item => show (st_write (clause_line item)));
  _ ← show (st_markdown (pystr "### Legal Clauses " ++ [9878; 65039]));
  for_each legal_results (fun item => show (st_write (clause_line item))).

(** [uploaded_file] is what [st.file_uploader] returned and [button] what
    [st.button] returned in this run of the script. *)
Definition main (uploaded_file : option UploadedFile) (button : bool) : script unit :=
  _ ← show (st_title TITLE);
  match uploaded_file with
  | Some file =>
      _ ← show (st_spinner (pystr "Extracting text from file..."));
      text ← lift (extract_text Document_paragraphs PdfReader_pages file);
      match text with
      | Some (c :: t) =>
          let text := c :: t in
          _ ← show (st_subheader PREVIEW_HEADER);
          _ ← show (st_write (preview text));
          if button then analyze text else mret tt
      | _ =>
          (* [if not text:] *)
          show (st_error EXTRACT_ERROR)
      end
  | None => mret tt
  end.
End Main.

Definition empty_world : world := {| shown := []; sent := [] |}.

(** ** Vocabulary of the properties *)

(** The pattern the clause checker builds for a phrase, and the items it
    stands for once every character is taken literally. *)
Definition phrase_pattern (keyword : str) : str :=
  pystr "\b" ++ re_escape keyword ++ pystr "\b".

Definition phrase_regex (keyword : str) : list regex :=
  AT AT_BOUNDARY :: map LITERAL keyword ++ [AT AT_BOUNDARY].

Section Vocabulary.
Variable U : unicode_db.

(** A phrase occurs in [s] with a regex word boundary on each side: on
    each side, exactly one of the two neighbouring characters is a word
    character. *)
Definition occurs_at_word_boundaries (phrase s : str) : Prop :=
  exists pre post,
    s = pre ++ phrase ++ post
    /\ xorb (word_side U (last pre)) (word_side U (head (phrase ++ post))) = true
    /\ xorb (word_side U (last (pre ++ phrase))) (word_side U (head post)) = true.

(** A phrase occurs in [s] with no word character next to it on either
    side (the ends of the string count as non-word). *)
Definition whole_phrase_match (phrase s : str) : Prop :=
  exists pre post,
    s = pre ++ phrase ++ post
    /\ word_side U (last pre) = false
    /\ word_side U (head post) = false.

(** The phrase begins and ends with a word character. *)
Definition word_delimited (phrase : str) : Prop :=
  word_side U (head phrase) = true /\ word_side U (last phrase) = true.

(** Presence of a phrase and of a clause, as the checker computes them
    once the pattern is parsed. *)
Definition phrase_found (text_lower keyword : str) : bool :=
  search_from U (phrase_regex keyword) None text_lower.

Definition clause_present (text_lower : str) (keywords : list str) : bool :=
  existsb (phrase_found text_lower) keywords.

(** The report as a fold over the taxonomy. *)
Definition report_from (text_lower : str) (items : dict (list str))
    (results : dict bool) : dict bool :=
  fold_left (fun r item => dict_set (fst item) (clause_present text_lower (snd item)) r)
    items results.
End Vocabulary.

(** The page texts that survive [if page_text:], in page order. *)
Definition nonempty_page_texts (pages : list (option str)) : list str :=
  omap id (List.filter truthy pages).

(** A database that knows no character above U+007F; used to run the model
    on ASCII inputs, where the database is never consulted. *)
Definition ascii_only_db : unicode_db :=
  {| db_lower := id;
     db_isalnum := fun _ => false;
     db_isdecimal := fun _ => false;
     db_isspace := fun _ => false |}.

(** Sample inputs. *)
Definition LEGAL_SCENARIO : str :=
  pystr "This agreement includes an NDA and may be terminated by either party.".
Definition FUSED_TEXT : str := pystr "This is a nondisclosure agreement".
Definition HYPHENATED_TEXT : str := pystr "This is a Non-Disclosure Agreement".
Definition EMBEDDED_TEXT : str := pystr "determinationally".
Definition HELLO_WORLD : str := pystr "Hello" ++ [10] ++ pystr "World".
Definition HELLO_WORLD_BYTES : bytes := pybytes "Hello" ++ [Byte.x0a] ++ pybytes "World".

(** A taxonomy whose only phrase starts with a hyphen. *)
Definition DASH_TAXONOMY : dict (list str) := [(pystr "K", [pystr "-x"])].

Definition no_docx : UploadedFile -> result (list str) := fun _ => Return [].
Definition no_pdf : UploadedFile -> result (list (option str)) := fun _ => Return [].

Definition PLAIN_HELLO : UploadedFile :=
  {| type := pystr "text/plain"; getvalue := HELLO_WORLD_BYTES |}.
Definition PNG_FILE : UploadedFile :=
  {| type := pystr "image/png"; getvalue := [] |}.
Definition BAD_TEXT : UploadedFile :=
  {| type := pystr "text/plain"; getvalue := [Byte.x48; Byte.xff] |}.
Definition BLANK_PDF : UploadedFile :=
  {| type := PDF_TYPE; getvalue := [] |}.
Definition NOTICE_TEXT : str := pystr "Either party may end this agreement.".
Definition NOTICE_FILE : UploadedFile :=
  {| type := pystr "text/plain";
     getvalue := pybytes "Either party may end this agreement." |}.

Definition blank_pages : UploadedFile -> result (list (option str)) :=
  fun _ => Return [None; Some []].
Definition sample_pages : UploadedFile -> result (list (option str)) :=
  fun _ => Return [Some (pystr "A"); None; Some []; Some (pystr "B")].

(** A completion service that fails on the dates request and on no other. *)
Definition dates_fail : list request -> request -> result str :=
  fun _ req =>
    match messages req with
    | [(_, content)] =>
        if startswith content (pystr "Find all important dates")
        then Raise (RemoteCallFailure (pystr "dates"))
        else Return (pystr "ok")
    | _ => Return (pystr "ok")
    end.

(** What [main] leaves behind when it stops at [if not text:]. *)
Definition rejected (w : world) : world :=
  {| shown := shown w ++ [ st_title TITLE;
                           st_spinner (pystr "Extracting text from file...");
                           st_error EXTRACT_ERROR ];
     sent := sent w |}.

(** ** Vocabulary of the further properties *)

(** [s.split("\n")]: the pieces of [s] between newlines. *)
Fixpoint split_newline (s : str) : list str :=
  match s with
  | [] => [[]]
  | c :: s' =>
      if c =? 10 then [] :: split_newline s'
      else match split_newline s' with
           | piece :: pieces => (c :: piece) :: pieces
           | [] => [[c]]
           end
  end.

(** Unicode scalar values: code points up to U+10FFFF that are no
    surrogates. *)
Definition is_scalar (c : N) : bool :=
  (c <? 55296) || ((57344 <=? c) && (c <=? 1114111)).

(** The UTF-8 encoding of a scalar value, and of a string: six bits per
    continuation byte, the rest in the leading byte. *)
Definition utf8_encode_char (c : N) : list N :=
  if c <? 128 then [c]
  else if c <? 2048 then [192 + c / 64; 128 + c mod 64]
  else if c <? 65536 then [224 + c / 64 / 64; 128 + (c / 64) mod 64; 128 + c mod 64]
  else [240 + c / 64 / 64 / 64; 128 + (c / 64 / 64) mod 64;
        128 + (c / 64) mod 64; 128 + c mod 64].

Definition utf8_encode (s : str) : list N := flat_map utf8_encode_char s.

(** The phrase has an upper-case ASCII letter. *)
Definition has_ascii_upper (phrase : str) : bool := existsb ascii_isupper phrase.

(** The five narrative requests for a document, in the order [main] sends
    them. *)
Definition narrative_requests (text : str) : list request :=
  [ summarize_request text;
    get_obligations_request text;
    extract_important_dates_request text;
    extract_termination_clauses_request text;
    highlight_confidentiality_noncompete_request text ].

(** The report of a taxonomy with distinct clause names, entry by entry. *)
Definition report_of (U : unicode_db) (text : str) (T : dict (list str)) : dict bool :=
  map (fun item => (fst item, clause_present U (str_lower U text) (snd item))) T.

(** What a completed analysis draws, given the five answers. *)
Definition analysis_display (U : unicode_db) (text : str)
    (summary obligations dates termination confidentiality : str) : list ui_event :=
  [ st_spinner (pystr "Analyzing...");
    st_subheader (PIN :: pystr " Executive Summary"); st_write summary;
    st_subheader (PIN :: pystr " Key Obligations"); st_write obligations;
    st_subheader (PIN :: pystr " Important Dates / Deadlines"); st_write dates;
    st_subheader (PIN :: pystr " Termination Clauses"); st_write termination;
    st_subheader (PIN :: pystr " Confidentiality and Non-Compete Clauses");
    st_write confidentiality;
    st_subheader (pystr "Clause Presence Checker");
    st_markdown (pystr "###  Commercial Clauses " ++ [128722]) ]
  ++ map (fun item => st_write (clause_line item)) (report_of U text commercial_clauses)
  ++ [ st_markdown (pystr "### Legal Clauses " ++ [9878; 65039]) ]
  ++ map (fun item => st_write (clause_line item)) (report_of U text legal_clauses).

(** What [main] draws before the analysis, for an accepted document. *)
Definition preview_display (text : str) : list ui_event :=
  [ st_title TITLE;
    st_spinner (pystr "Extracting text from file...");
    st_subheader PREVIEW_HEADER;
    st_write (preview text) ].

(** The service answers the requests [reqs], sent one after the other
    after [history], with [answers]. *)
Fixpoint answers_all (completion : list request -> request -> result str)
    (history reqs : list request) (answers : list str) : Prop :=
  match reqs, answers with
  | [], [] => True
  | req :: reqs', answer :: answers' =>
      completion history req = Return answer
      /\ answers_all completion (history ++ [req]) reqs' answers'
  | _, _ => False
  end.

(** A completion service that always answers. *)
Definition always_ok : list request -> request -> result str :=
  fun _ _ => Return (pystr "ok").

(** The start of the script (lines 13-19) and its last line: without an
    API key the script shows an error and [st.stop()] ends the run; with
    one, the client is built from the key and [main] runs. *)
Definition KEY_ERROR : str :=
  pystr "API key not found. Please set OPENAI_API_KEY in your .env file.".

Section Script.
Variable U : unicode_db.
Variable Document_paragraphs : UploadedFile -> result (list str).
Variable PdfReader_pages : UploadedFile -> result (list (option str)).
(** [OpenAI(api_key=api_key)]: the completion service as reached with a key. *)
Variable client : str -> list request -> request -> result str.

Definition run_script (api_key : option str) (uploaded_file : option UploadedFile)
    (button : bool) : script unit :=
  if negb (truthy api_key) then
    show (st_error KEY_ERROR)
  else
    main U Document_paragraphs PdfReader_pages (client (default [] api_key))
      uploaded_file button.
End Script.

Definition docx_of (paragraphs : list str) : UploadedFile -> result (list str) :=
  fun _ => Return paragraphs.
Definition pdf_of (pages : list (option str)) : UploadedFile -> result (list (option str)) :=
  fun _ => Return pages.
Definition DOCX_FILE : UploadedFile := {| type := DOCX_TYPE; getvalue := [] |}.
Definition EMPTY_TEXT_FILE : UploadedFile := {| type := pystr "text/plain"; getvalue := [] |}.

(** Proof steps for the byte arithmetic of UTF-8: name the quotient and
    remainder of a division by 64. *)
Ltac split64 x q r :=
  pose proof (N.div_mod x 64 ltac:(discriminate));
  pose proof (N.mod_lt x 64 ltac:(discriminate));
  set (q := x / 64) in *; set (r := x mod 64) in *; clearbody q r.


(** Decide every comparison that occurs in the goal, dropping the cases the
    context rules out. *)
Ltac decide_tests :=
  repeat match goal with
         | |- context [?a =? ?b] => destruct (N.eqb_spec a b); try lia
         | |- context [?a <? ?b] => destruct (N.ltb_spec a b); try lia
         | |- context [?a <=? ?b] => destruct (N.leb_spec a b); try lia
         end.


Ltac solve_test :=
  unfold is_continuation, in_range; decide_tests; first [reflexivity | lia].


Ltac arith_hyps :=
  repeat match goal with
         | H : _ && _ = true |- _ => apply andb_true_iff in H; destruct H
         | H : in_range _ _ _ = true |- _ => unfold in_range in H
         | H : is_continuation _ = true |- _ => unfold is_continuation in H
         | H : (_ <=? _) = true |- _ => apply N.leb_le in H
         | H : (_ <? _) = true |- _ => apply N.ltb_lt in H
         | H : (_ <? _) = false |- _ => apply N.ltb_ge in H
         end.


(** * Properties *)

(** ** Strings and dictionaries *)

Lemma str_eqb_eq (a b : str) : str_eqb a b = true <-> a = b.
Proof.
  revert b; induction a as [|x a IH]; intros [|y b]; simpl; try easy.
  rewrite andb_true_iff, N.eqb_eq, IH. split.
  - intros [-> ->]; reflexivity.
  - intros [= -> ->]; auto.
Qed.

Lemma str_eqb_refl (a : str) : str_eqb a a = true.
Proof. apply str_eqb_eq; reflexivity. Qed.

Lemma str_eqb_neq (a b : str) : str_eqb a b = false <-> a <> b.
Proof.
  rewrite <- str_eqb_eq. destruct (str_eqb a b); split; congruence.
Qed.

Lemma startswith_app (s p : str) :
  startswith s p = true <-> exists rest, s = p ++ rest.
Proof.
  revert s; induction p as [|y p IH]; intros s.
  - split; [eauto | intros _; destruct s; reflexivity].
  - destruct s as [|x s]; simpl.
    + split; [discriminate | intros [rest [=]]].
    + rewrite andb_true_iff, N.eqb_eq, IH. split.
      * intros [-> [rest ->]]; eauto.
      * intros [rest [= -> ->]]; eauto.
Qed.

Section Dict.
Context {V : Type}.
Implicit Types (d : dict V) (k : str) (v : V).

Lemma dict_get_None d k : dict_get d k = None <-> k ∉ keys d.
Proof.
  induction d as [|[k' v'] d IH]; simpl.
  - split; [intros _; apply not_elem_of_nil | reflexivity].
  - rewrite not_elem_of_cons. destruct (str_eqb k' k) eqn:E.
    + apply str_eqb_eq in E. split; [discriminate | intros [? _]; congruence].
    + apply str_eqb_neq in E. rewrite IH. split; [intros ?; split; congruence | tauto].
Qed.

Lemma dict_get_Some_elem d k v : dict_get d k = Some v -> (k, v) ∈ d.
Proof.
  induction d as [|[k' v'] d IH]; simpl; [discriminate|].
  destruct (str_eqb k' k) eqn:E.
  - apply str_eqb_eq in E. intros [= ->]. subst. apply list_elem_of_here.
  - intros H. apply list_elem_of_further, IH, H.
Qed.

Lemma dict_get_set_eq d k v : dict_get (dict_set k v d) k = Some v.
Proof.
  induction d as [|[k' v'] d IH]; simpl.
  - rewrite str_eqb_refl; reflexivity.
  - destruct (str_eqb k' k) eqn:E; simpl; rewrite E; auto.
Qed.

Lemma dict_get_set_ne d k k' v :
  k <> k' -> dict_get (dict_set k v d) k' = dict_get d k'.
Proof.
  intros Hne. induction d as [|[k0 v0] d IH]; simpl.
  - apply str_eqb_neq in Hne. rewrite Hne; reflexivity.
  - destruct (str_eqb k0 k) eqn:E; simpl.
    + apply str_eqb_eq in E; subst k0.
      apply str_eqb_neq in Hne. rewrite Hne; reflexivity.
    + destruct (str_eqb k0 k'); auto.
Qed.

Lemma keys_dict_set d k v :
  keys (dict_set k v d) = if decide (k ∈ keys d) then keys d else keys d ++ [k].
Proof.
  induction d as [|[k' v'] d IH]; simpl.
  - reflexivity.
  - destruct (str_eqb k' k) eqn:E; simpl.
    + apply str_eqb_eq in E; subst k'.
      rewrite decide_True by apply list_elem_of_here. reflexivity.
    + apply str_eqb_neq in E. rewrite IH.
      destruct (decide (k ∈ keys d)) as [Hin|Hin].
      * rewrite decide_True by (apply list_elem_of_further, Hin). reflexivity.
      * rewrite decide_False; [reflexivity|].
        rewrite elem_of_cons. intros [?|?]; [congruence | tauto].
Qed.

Lemma elem_of_keys_dict_set d k k' v :
  k' ∈ keys (dict_set k v d) <-> k' = k \/ k' ∈ keys d.
Proof.
  rewrite keys_dict_set. destruct (decide (k ∈ keys d)) as [Hin|Hin].
  - split; [auto | intros [->|?]; auto].
  - rewrite elem_of_app, list_elem_of_singleton. tauto.
Qed.

Lemma NoDup_keys_dict_set d k v : NoDup (keys d) -> NoDup (keys (dict_set k v d)).
Proof.
  intros Hd. rewrite keys_dict_set. destruct (decide (k ∈ keys d)) as [Hin|Hin]; [exact Hd|].
  apply NoDup_app. split; [exact Hd|]. split.
  - intros x Hx. rewrite list_elem_of_singleton. intros ->. tauto.
  - apply NoDup_singleton.
Qed.
End Dict.

(** ** Escaped phrases parse as literals *)

Lemma escape_code_special (c : N) :
  escape_special c = true -> escape_code c = Return (LITERAL c).
Proof.
  unfold escape_special. rewrite existsb_exists.
  intros (x & Hin & Heq). apply N.eqb_eq in Heq; subst x.
  cbv in Hin.
  repeat (destruct Hin as [<-|Hin]; [reflexivity|]). destruct Hin.
Qed.

Lemma unescaped_is_plain (c : N) :
  escape_special c = false ->
  in_chars c "|)" = false /\ is_char c "\" = false /\ in_chars c SPECIAL_CHARS = false.
Proof.
  unfold escape_special, in_chars, is_char, SPECIAL_ESCAPED, SPECIAL_CHARS.
  cbn [pystr list_ascii_of_string map existsb app ord N_of_ascii N_of_digits].
  cbn -[N.eqb orb].
  rewrite !orb_false_iff. intuition congruence.
Qed.

Lemma parse_items_escape (f : nat) (e : N) (s : str) (acc : list regex) :
  parse_items (S f) (ord "\" :: e :: s) acc
  = (code ← escape_code e; parse_items f s (code :: acc)).
Proof. reflexivity. Qed.

Lemma parse_items_plain (f : nat) (c : N) (s : str) (acc : list regex) :
  in_chars c "|)" = false -> is_char c "\" = false ->
  in_chars c SPECIAL_CHARS = false ->
  parse_items (S f) (c :: s) acc = parse_items f s (LITERAL c :: acc).
Proof.
  intros H1 H2 H3. cbn [parse_items]. rewrite H1, H2, H3. reflexivity.
Qed.

Lemma parse_items_end (f : nat) (acc : list regex) :
  parse_items (S f) [] acc = Return (rev acc, []).
Proof. reflexivity. Qed.

Lemma parse_items_escaped (kw : str) :
  forall (fuel : nat) (acc : list regex) (rest : str),
    (length kw <= fuel)%nat ->
    parse_items fuel (re_escape kw ++ rest) acc
    = parse_items (fuel - length kw) rest (rev (map LITERAL kw) ++ acc).
Proof.
  induction kw as [|c kw IH]; intros fuel acc rest Hfuel.
  - simpl. rewrite Nat.sub_0_r. reflexivity.
  - destruct fuel as [|f]; [simpl in Hfuel; lia|].
    simpl in Hfuel.
    change (re_escape (c :: kw))
      with ((if escape_special c then [ord "\"; c] else [c]) ++ re_escape kw).
    change (S f - length (c :: kw))%nat with (f - length kw)%nat.
    destruct (escape_special c) eqn:E.
    + change (([ord "\"; c] ++ re_escape kw) ++ rest)
        with (ord "\" :: c :: re_escape kw ++ rest).
      rewrite parse_items_escape, (escape_code_special c E).
      change (parse_items f (re_escape kw ++ rest) (LITERAL c :: acc)
              = parse_items (f - length kw) rest (rev (map LITERAL (c :: kw)) ++ acc)).
      rewrite IH by lia. simpl. rewrite <- app_assoc. reflexivity.
    + destruct (unescaped_is_plain c E) as (H1 & H2 & H3).
      change (([c] ++ re_escape kw) ++ rest) with (c :: re_escape kw ++ rest).
      rewrite (parse_items_plain _ _ _ _ H1 H2 H3).
      rewrite IH by lia. simpl. rewrite <- app_assoc. reflexivity.
Qed.

Lemma length_re_escape (kw : str) : (length kw <= length (re_escape kw))%nat.
Proof.
  induction kw as [|c kw IH]; simpl; [lia|].
  rewrite length_app. destruct (escape_special c); simpl; lia.
Qed.

Lemma parse_items_phrase (kw : str) (fuel : nat) :
  (length kw + 3 <= fuel)%nat ->
  parse_items fuel (phrase_pattern kw) [] = Return (phrase_regex kw, []).
Proof.
  intros Hfuel. unfold phrase_pattern.
  destruct fuel as [|f]; [lia|].
  change (pystr "\b" ++ re_escape kw ++ pystr "\b")
    with (ord "\" :: ord "b" :: re_escape kw ++ [ord "\"; ord "b"]).
  rewrite parse_items_escape.
  change (escape_code (ord "b")) with (Return (AT AT_BOUNDARY)).
  cbn [mbind result_bind].
  rewrite parse_items_escaped by lia.
  destruct (f - length kw)%nat as [|[|g]] eqn:E; [lia | lia |].
  rewrite parse_items_escape.
  change (escape_code (ord "b")) with (Return (AT AT_BOUNDARY)).
  cbn [mbind result_bind]. rewrite parse_items_end.
  unfold phrase_regex. cbn [rev].
  rewrite rev_app_distr, rev_involutive. reflexivity.
Qed.

Lemma parse_alts_unfold (f : nat) (s : str) :
  parse_alts (S f) s
  = ('(items, rest) ← parse_items f s [];
     match rest with
     | c :: rest' =>
         if is_char c "|" then
           '(alts, rest'') ← parse_alts f rest';
           Return (items :: alts, rest'')
         else Return ([items], rest)
     | [] => Return ([items], rest)
     end).
Proof. reflexivity. Qed.

Lemma parse_phrase_pattern (kw : str) :
  parse (phrase_pattern kw) = Return (phrase_regex kw).
Proof.
  unfold parse.
  assert (Hlen : exists f, (2 * length (phrase_pattern kw) + 2)%nat = S f
                           /\ (length kw + 3 <= f)%nat).
  { pose proof (length_re_escape kw) as Hle.
    exists (2 * length (phrase_pattern kw) + 1)%nat. split; [lia|].
    unfold phrase_pattern. rewrite !length_app.
    change (length (pystr "\b")) with 2%nat. lia. }
  destruct Hlen as (f & -> & Hf).
  rewrite parse_alts_unfold, parse_items_phrase by exact Hf.
  reflexivity.
Qed.

(** ** What the phrase pattern matches *)

Section MatchingFacts.
Variable U : unicode_db.

Lemma rmatch_seq_literals (kw : str) :
  forall (rs : list regex) (prev : option N) (s : str) (k : option N -> str -> bool),
    rmatch_seq U (map LITERAL kw ++ rs) prev s k = true
    <-> exists post,
          s = kw ++ post
          /\ rmatch_seq U rs (match last kw with Some c => Some c | None => prev end)
               post k = true.
Proof.
  induction kw as [|c kw IH]; intros rs prev s k.
  - simpl. split; [eauto | intros (post & -> & H); exact H].
  - change (rmatch_seq U (map LITERAL (c :: kw) ++ rs) prev s k)
      with (match s with
            | x :: s' => (x =? c) && rmatch_seq U (map LITERAL kw ++ rs) (Some x) s' k
            | [] => false
            end).
    destruct s as [|x s'].
    + split; [discriminate | intros (post & [=] & _)].
    + rewrite andb_true_iff, N.eqb_eq, IH, last_cons. split.
      * intros (-> & post & -> & H). exists post. split; [reflexivity|].
        destruct (last kw); exact H.
      * intros (post & [= -> ->] & H). split; [reflexivity|].
        exists post. split; [reflexivity|]. destruct (last kw); exact H.
Qed.

Lemma search_from_spec (p : list regex) (s : str) :
  forall prev : option N,
    search_from U p prev s = true
    <-> exists pre post,
          s = pre ++ post
          /\ match_here U p (match last pre with Some c => Some c | None => prev end)
               post = true.
Proof.
  induction s as [|c s IH]; intros prev.
  - simpl. rewrite orb_false_r. split.
    + intros H. exists [], []. auto.
    + intros (pre & post & Heq & H). symmetry in Heq.
      apply app_eq_nil in Heq as [-> ->]. exact H.
  - simpl. rewrite orb_true_iff, IH. split.
    + intros [H | (pre & post & -> & H)].
      * exists [], (c :: s). auto.
      * exists (c :: pre), post. split; [reflexivity|].
        rewrite last_cons. destruct (last pre); exact H.
    + intros (pre & post & Heq & H). destruct pre as [|x pre].
      * left. simpl in Heq. subst post. exact H.
      * right. injection Heq as -> ->. exists pre, post. split; [reflexivity|].
        rewrite last_cons in H. destruct (last pre); exact H.
Qed.

Lemma match_here_phrase (kw : str) (prev : option N) (s : str) :
  match_here U (phrase_regex kw) prev s = true
  <-> xorb (word_side U prev) (word_side U (head s)) = true
      /\ exists post,
           s = kw ++ post
           /\ xorb (word_side U (match last kw with Some c => Some c | None => prev end))
                   (word_side U (head post)) = true.
Proof.
  unfold match_here, phrase_regex.
  change (rmatch_seq U (AT AT_BOUNDARY :: map LITERAL kw ++ [AT AT_BOUNDARY]) prev s
            (fun _ _ => true))
    with (xorb (word_side U prev) (word_side U (head s))
          && rmatch_seq U (map LITERAL kw ++ [AT AT_BOUNDARY]) prev s (fun _ _ => true)).
  rewrite andb_true_iff, rmatch_seq_literals.
  split; intros (H1 & post & -> & H2); (split; [exact H1|]); exists post;
    (split; [reflexivity|]).
  - simpl in H2. rewrite andb_true_r in H2. exact H2.
  - simpl. rewrite andb_true_r. exact H2.
Qed.

Lemma phrase_found_spec (text_lower kw : str) :
  phrase_found U text_lower kw = true <-> occurs_at_word_boundaries U kw text_lower.
Proof.
  unfold phrase_found, occurs_at_word_boundaries. rewrite search_from_spec.
  split.
  - intros (pre & s & -> & H). apply match_here_phrase in H as (H1 & post & -> & H2).
    exists pre, post. split; [reflexivity|].
    rewrite last_app. destruct (last pre); auto.
  - intros (pre & post & -> & H1 & H2). exists pre, (kw ++ post).
    split; [reflexivity|]. apply match_here_phrase.
    rewrite last_app in H2. destruct (last pre); eauto.
Qed.

Lemma re_search_phrase (text_lower kw : str) :
  re_search U (phrase_pattern kw) text_lower = Return (phrase_found U text_lower kw).
Proof. unfold re_search. rewrite parse_phrase_pattern. reflexivity. Qed.

Lemma any_keyword_spec (text_lower : str) (keywords : list str) :
  any_keyword U text_lower keywords = Return (clause_present U text_lower keywords).
Proof.
  induction keywords as [|kw rest IH]; [reflexivity|].
  change (any_keyword U text_lower (kw :: rest))
    with (found ← re_search U (phrase_pattern kw) text_lower;
          if (found : bool) then Return true else any_keyword U text_lower rest).
  rewrite re_search_phrase. cbn [mbind result_bind]. simpl clause_present.
  destruct (phrase_found U text_lower kw); [reflexivity | exact IH].
Qed.

Lemma clause_present_spec (text_lower : str) (keywords : list str) :
  clause_present U text_lower keywords = true
  <-> exists kw, kw ∈ keywords /\ occurs_at_word_boundaries U kw text_lower.
Proof.
  unfold clause_present. rewrite existsb_exists.
  split; intros (kw & Hin & H); exists kw.
  - split; [apply list_elem_of_In, Hin | apply phrase_found_spec, H].
  - split; [apply list_elem_of_In, Hin | apply phrase_found_spec, H].
Qed.

Lemma check_loop_spec (text_lower : str) (items : dict (list str)) :
  forall results : dict bool,
    check_loop U text_lower items results = Return (report_from U text_lower items results).
Proof.
  induction items as [|[clause keywords] rest IH]; intros results; [reflexivity|].
  simpl. rewrite any_keyword_spec. cbn [mbind result_bind]. apply IH.
Qed.

Lemma keys_report_from (text_lower : str) (items : dict (list str)) :
  forall (results : dict bool) (k : str),
    k ∈ keys (report_from U text_lower items results)
    <-> k ∈ keys results \/ k ∈ keys items.
Proof.
  induction items as [|[clause keywords] rest IH]; intros results k.
  - simpl. rewrite elem_of_nil. tauto.
  - unfold report_from in *. simpl. rewrite IH, elem_of_keys_dict_set, elem_of_cons.
    tauto.
Qed.

Lemma NoDup_report_from (text_lower : str) (items : dict (list str)) :
  forall results : dict bool,
    NoDup (keys results) -> NoDup (keys (report_from U text_lower items results)).
Proof.
  induction items as [|[clause keywords] rest IH]; intros results Hnd; [exact Hnd|].
  unfold report_from in *. simpl. apply IH, NoDup_keys_dict_set, Hnd.
Qed.

(** Every entry of the report comes from an entry of the taxonomy (or was
    there before the loop). *)
Lemma report_from_origin (text_lower : str) (items : dict (list str)) :
  forall (results : dict bool) (k : str) (b : bool),
    dict_get (report_from U text_lower items results) k = Some b ->
    (exists keywords, (k, keywords) ∈ items /\ b = clause_present U text_lower keywords)
    \/ dict_get results k = Some b.
Proof.
  induction items as [|[clause keywords] rest IH]; intros results k b H; [right; exact H|].
  unfold report_from in *. simpl in H. apply IH in H as [(kws & Hin & ->) | H].
  - left. exists kws. split; [apply list_elem_of_further, Hin | reflexivity].
  - destruct (decide (clause = k)) as [->|Hne].
    + rewrite dict_get_set_eq in H. injection H as <-.
      left. exists keywords. split; [apply list_elem_of_here | reflexivity].
    + rewrite dict_get_set_ne in H by exact Hne. right; exact H.
Qed.

(** With distinct clause names, the report is the taxonomy with each
    synonym list replaced by its presence bit. *)
Lemma report_from_get (text_lower : str) (items : dict (list str)) :
  forall (results : dict bool) (k : str),
    NoDup (keys items) ->
    dict_get (report_from U text_lower items results) k
    = match dict_get items k with
      | Some keywords => Some (clause_present U text_lower keywords)
      | None => dict_get results k
      end.
Proof.
  induction items as [|[clause keywords] rest IH]; intros results k Hnd; [reflexivity|].
  simpl in Hnd. apply NoDup_cons in Hnd as [Hnotin Hnd].
  unfold report_from in *. simpl. rewrite IH by exact Hnd.
  destruct (str_eqb clause k) eqn:E.
  - apply str_eqb_eq in E; subst k.
    apply dict_get_None in Hnotin. rewrite Hnotin. apply dict_get_set_eq.
  - apply str_eqb_neq in E. rewrite dict_get_set_ne by exact E. reflexivity.
Qed.
End MatchingFacts.

(** ** The clause checker *)

Lemma check_clauses_report (U : unicode_db) (text : str) (T : dict (list str)) :
  check_clauses U text T = Return (report_from U (str_lower U text) T []).
Proof. unfold check_clauses. apply check_loop_spec. Qed.

Lemma whole_phrase_of_boundaries (U : unicode_db) (phrase s : str) :
  word_delimited U phrase ->
  occurs_at_word_boundaries U phrase s <-> whole_phrase_match U phrase s.
Proof.
  intros [Hhead Hlast].
  assert (Hh : forall post, head (phrase ++ post) = head phrase).
  { intros post. destruct phrase; [discriminate Hhead | reflexivity]. }
  assert (Hl : forall pre, last (pre ++ phrase) = last phrase).
  { intros pre. rewrite last_app. destruct (last phrase); [reflexivity | discriminate Hlast]. }
  split; intros (pre & post & Heq & H1 & H2); exists pre, post;
    (split; [exact Heq|]); rewrite Hh, Hhead in *; rewrite Hl, Hlast in *.
  - split; [destruct (word_side U (last pre)) | destruct (word_side U (head post))];
      simpl in *; congruence.
  - rewrite H1, H2. split; reflexivity.
Qed.

(** C2. [check_clauses] always returns, and the report has exactly the
    taxonomy's clause names as keys, each of them once and each bound to a
    boolean. *)
Theorem check_clauses_keys (U : unicode_db) (text : str) (T : dict (list str)) :
  exists R : dict bool,
    check_clauses U text T = Return R
    /\ (forall k, k ∈ keys R <-> k ∈ keys T)
    /\ NoDup (keys R)
    /\ (forall k, k ∈ keys T <-> exists b : bool, dict_get R k = Some b).
Proof.
  exists (report_from U (str_lower U text) T []).
  split; [apply check_clauses_report|].
  assert (Hkeys : forall k, k ∈ keys (report_from U (str_lower U text) T []) <-> k ∈ keys T).
  { intros k. rewrite keys_report_from. simpl. rewrite elem_of_nil. tauto. }
  split; [exact Hkeys|]. split.
  - apply NoDup_report_from. apply NoDup_nil_2.
  - intros k. rewrite <- Hkeys. split.
    + intros Hin. destruct (dict_get (report_from U (str_lower U text) T []) k) as [b|] eqn:E.
      * exists b; reflexivity.
      * apply dict_get_None in E. contradiction.
    + intros [b Hb]. destruct (decide (k ∈ keys (report_from U (str_lower U text) T []))) as [|Hn];
        [assumption|].
      apply dict_get_None in Hn. congruence.
Qed.

(** With distinct clause names (as in any Python dict) the report also
    keeps the taxonomy's order. *)
Lemma check_clauses_keys_order (U : unicode_db) (text : str) (T : dict (list str)) :
  NoDup (keys T) ->
  check_clauses U text T
  = Return (map (fun item => (fst item, clause_present U (str_lower U text) (snd item))) T).
Proof.
  intros Hnd. rewrite check_clauses_report. f_equal.
  set (tl := str_lower U text).
  assert (Hgen : forall results : dict bool,
            NoDup (keys results ++ keys T) ->
            report_from U tl T results
            = results ++ map (fun item => (fst item, clause_present U tl (snd item))) T).
  { clear Hnd. induction T as [|[clause keywords] rest IH]; intros results Hnd.
    - simpl. rewrite app_nil_r. reflexivity.
    - unfold report_from in *. simpl.
      assert (Hset : dict_set clause (clause_present U tl keywords) results
                     = results ++ [(clause, clause_present U tl keywords)]).
      { apply NoDup_app in Hnd as (_ & Hdisj & _).
        assert (Hn : clause ∉ keys results).
        { intros Hin. apply (Hdisj _ Hin). simpl. apply list_elem_of_here. }
        clear -Hn. induction results as [|[k v] results IHr]; [reflexivity|].
        simpl in *. apply not_elem_of_cons in Hn as [Hne Hn].
        assert (E : str_eqb k clause = false) by (apply str_eqb_neq; congruence).
        rewrite E, IHr by exact Hn. reflexivity. }
      rewrite Hset, IH.
      + rewrite <- app_assoc. reflexivity.
      + unfold keys in *. rewrite map_app, <- app_assoc. exact Hnd. }
  apply (Hgen []). exact Hnd.
Qed.

(** C9 (amended). Every character of a phrase is matched literally: the
    pattern built for a phrase parses to the phrase's own characters between
    two [\b] assertions, whatever metacharacters it contains; so, for a
    taxonomy with distinct clause names, a clause is marked present exactly
    when one of its phrases occurs, character for character, in the
    lower-cased text with a word boundary on each side. *)
Theorem phrases_are_literal (U : unicode_db) (text : str) (T : dict (list str)) :
  NoDup (keys T) ->
  (forall phrase : str,
     parse (pystr "\b" ++ re_escape phrase ++ pystr "\b")
     = Return (AT AT_BOUNDARY :: map LITERAL phrase ++ [AT AT_BOUNDARY]))
  /\ exists R : dict bool,
       check_clauses U text T = Return R
       /\ forall clause : str,
            dict_get R clause = Some true
            <-> exists keywords phrase,
                  dict_get T clause = Some keywords
                  /\ phrase ∈ keywords
                  /\ occurs_at_word_boundaries U phrase (str_lower U text).
Proof.
  intros Hnd. split; [exact parse_phrase_pattern|].
  exists (report_from U (str_lower U text) T []).
  split; [apply check_clauses_report|].
  intros clause. rewrite report_from_get by exact Hnd.
  destruct (dict_get T clause) as [keywords|]; simpl.
  - split.
    + intros [= H]. apply clause_present_spec in H as (phrase & Hin & Hocc). eauto.
    + intros (keywords' & phrase & [= <-] & Hin & Hocc). f_equal.
      apply clause_present_spec. eauto.
  - split; [discriminate | intros (? & ? & [=] & _)].
Qed.

(** The legal taxonomy on a text with a hyphenated phrase. *)
Lemma phrases_are_literal_witness :
  NoDup (keys legal_clauses)
  /\ exists R : dict bool,
       check_clauses ascii_only_db HYPHENATED_TEXT legal_clauses = Return R
       /\ forall clause : str,
            dict_get R clause = Some true
            <-> exists keywords phrase,
                  dict_get legal_clauses clause = Some keywords
                  /\ phrase ∈ keywords
                  /\ occurs_at_word_boundaries ascii_only_db phrase
                       (str_lower ascii_only_db HYPHENATED_TEXT).
Proof.
  assert (Hnd : NoDup (keys legal_clauses)).
  { apply NoDup_ListNoDup. repeat (constructor; [cbv; intuition discriminate|]). constructor. }
  split; [exact Hnd|].
  exact (proj2 (phrases_are_literal ascii_only_db HYPHENATED_TEXT legal_clauses Hnd)).
Defined.

(** Read against the text as given, the equivalence fails both ways: the
    phrase "IP rights" stands in the text "IP rights" and the clause IP is
    not marked, and the clause Confidentiality is marked in "NDA", where
    none of its phrases occurs character for character. *)
Lemma literal_match_counterexample :
  (forall U : unicode_db,
     exists R : dict bool,
       check_clauses U (pystr "IP rights") commercial_clauses = Return R
       /\ dict_get R (pystr "IP") = Some false
       /\ exists keywords phrase,
            dict_get commercial_clauses (pystr "IP") = Some keywords
            /\ phrase ∈ keywords
            /\ occurs_at_word_boundaries U phrase (pystr "IP rights"))
  /\ (forall U : unicode_db,
        exists R : dict bool,
          check_clauses U (pystr "NDA") legal_clauses = Return R
          /\ dict_get R (pystr "Confidentiality") = Some true
          /\ ~ exists keywords phrase,
                 dict_get legal_clauses (pystr "Confidentiality") = Some keywords
                 /\ phrase ∈ keywords
                 /\ occurs_at_word_boundaries U phrase (pystr "NDA")).
Proof.
  split; intros U.
  - eexists. split; [vm_compute; reflexivity|]. split; [reflexivity|].
    exists [pystr "intellectual property"; pystr "IP rights"; pystr "ownership of work"],
      (pystr "IP rights").
    split; [reflexivity|]. split.
    + apply list_elem_of_further, list_elem_of_here.
    + exists [], []. repeat split.
  - eexists. split; [vm_compute; reflexivity|]. split; [reflexivity|].
    intros (keywords & phrase & Hget & Hin & pre & post & Heq & _).
    injection Hget as <-. apply list_elem_of_In in Hin. simpl in Hin.
    change (pystr "NDA") with [78; 68; 65] in Heq.
    destruct pre as [|a [|b [|c [|d pre]]]];
      repeat (destruct Hin as [<-|Hin]; [discriminate Heq|]); destruct Hin.
Qed.

(** The word-boundary property does not hold for every taxonomy: a phrase
    that starts with a non-word character is found right after a word
    character.  The clause of [{"K": ["-x"]}] is marked present in ["a-x"],
    where ["-x"] only occurs with the letter [a] in front of it. *)
Lemma word_boundary_counterexample :
  (forall U : unicode_db,
     check_clauses U (pystr "a-x") DASH_TAXONOMY = Return [(pystr "K", true)])
  /\ (forall U : unicode_db,
        ~ exists keywords phrase,
            (pystr "K", keywords) ∈ DASH_TAXONOMY
            /\ phrase ∈ keywords
            /\ whole_phrase_match U phrase (str_lower U (pystr "a-x"))).
Proof.
  split; intros U; [reflexivity|].
  intros (keywords & phrase & Hin & Hphrase & pre & post & Heq & Hpre & Hpost).
  apply list_elem_of_singleton in Hin. injection Hin as ->.
  apply list_elem_of_singleton in Hphrase. subst phrase.
  change (str_lower U (pystr "a-x")) with [97; 45; 120] in Heq.
  change (pystr "-x") with [45; 120] in Heq.
  destruct pre as [|a [|b [|c pre]]]; simpl in Heq; try discriminate Heq.
  - injection Heq as <- _. discriminate Hpre.
  - injection Heq as _ _ _ Heq. destruct pre; discriminate Heq.
Qed.

(** C1 (amended). For a taxonomy whose phrases begin and end with a word
    character, a clause is marked present only when one of its phrases
    occurs in the lower-cased text with no word character next to it on
    either side.  The fused word "nondisclosure" does not match the phrase
    "non-disclosure", "This is a Non-Disclosure Agreement" does, and
    "determinationally" does not match "termination". *)
Theorem present_only_on_whole_phrase (U : unicode_db) :
  (forall (text : str) (T : dict (list str)) (R : dict bool) (clause : str),
     (forall name keywords phrase,
        (name, keywords) ∈ T -> phrase ∈ keywords -> word_delimited U phrase) ->
     check_clauses U text T = Return R ->
     dict_get R clause = Some true ->
     exists keywords phrase,
       (clause, keywords) ∈ T
       /\ phrase ∈ keywords
       /\ whole_phrase_match U phrase (str_lower U text))
  /\ (re_search U (pystr "\b" ++ re_escape (pystr "non-disclosure") ++ pystr "\b")
        (str_lower U FUSED_TEXT) = Return false
      /\ (R ← check_clauses U FUSED_TEXT legal_clauses;
          Return (dict_get R (pystr "Confidentiality"))) = Return (Some false))
  /\ (re_search U (pystr "\b" ++ re_escape (pystr "non-disclosure") ++ pystr "\b")
        (str_lower U HYPHENATED_TEXT) = Return true
      /\ (R ← check_clauses U HYPHENATED_TEXT legal_clauses;
          Return (dict_get R (pystr "Confidentiality"))) = Return (Some true))
  /\ (re_search U (pystr "\b" ++ re_escape (pystr "termination") ++ pystr "\b")
        (str_lower U EMBEDDED_TEXT) = Return false
      /\ (R ← check_clauses U EMBEDDED_TEXT legal_clauses;
          Return (dict_get R (pystr "Termination"))) = Return (Some false)).
Proof.
  split; [|repeat split; vm_compute; reflexivity].
  intros text T R clause Hdelim Hrun Hpresent.
  rewrite check_clauses_report in Hrun. injection Hrun as <-.
  apply report_from_origin in Hpresent as [(keywords & Hin & Hp) | H]; [|discriminate H].
  symmetry in Hp. apply clause_present_spec in Hp as (phrase & Hphrase & Hocc).
  exists keywords, phrase. split; [exact Hin|]. split; [exact Hphrase|].
  apply whole_phrase_of_boundaries; [|exact Hocc].
  exact (Hdelim _ _ _ Hin Hphrase).
Qed.

Lemma builtin_phrases_word_delimited (U : unicode_db) :
  forall name keywords phrase,
    (name, keywords) ∈ commercial_clauses ++ legal_clauses ->
    phrase ∈ keywords -> word_delimited U phrase.
Proof.
  intros name keywords phrase Hin Hphrase.
  apply list_elem_of_In in Hin. apply list_elem_of_In in Hphrase.
  simpl in Hin.
  repeat (destruct Hin as [[= <- <-]|Hin];
          [simpl in Hphrase;
           repeat (destruct Hphrase as [<-|Hphrase]; [split; reflexivity|]);
           destruct Hphrase|]).
  destruct Hin.
Qed.

(** The built-in legal taxonomy: Confidentiality is found through a whole phrase. *)
Lemma present_only_on_whole_phrase_witness :
  exists keywords phrase,
    (pystr "Confidentiality", keywords) ∈ legal_clauses
    /\ phrase ∈ keywords
    /\ whole_phrase_match ascii_only_db phrase (str_lower ascii_only_db HYPHENATED_TEXT).
Proof.
  refine (proj1 (present_only_on_whole_phrase ascii_only_db)
            HYPHENATED_TEXT legal_clauses
            [ (pystr "Indemnification", false); (pystr "Termination", false);
              (pystr "Confidentiality", true); (pystr "Limitation of Liability", false) ]
            (pystr "Confidentiality") _ _ _).
  - intros name keywords phrase Hin.
    apply (builtin_phrases_word_delimited ascii_only_db name keywords phrase).
    apply elem_of_app. right. exact Hin.
  - vm_compute. reflexivity.
  - vm_compute. reflexivity.
Defined.

(** C3. The phrase "IP rights" is compared, capitals and all, with the
    lower-cased text: the clause "IP" is not found in a text whose only IP
    wording is "IP rights", in any casing. *)
Theorem ip_rights_is_never_found (U : unicode_db) :
  (R ← check_clauses U (pystr "The client keeps all IP rights.") commercial_clauses;
   Return (dict_get R (pystr "IP"))) = Return (Some false)
  /\ (R ← check_clauses U (pystr "The client keeps all ip rights.") commercial_clauses;
      Return (dict_get R (pystr "IP"))) = Return (Some false)
  /\ (R ← check_clauses U (pystr "THE CLIENT KEEPS ALL IP RIGHTS.") commercial_clauses;
      Return (dict_get R (pystr "IP"))) = Return (Some false)
  /\ (R ← check_clauses U (pystr "The client keeps all intellectual property.") commercial_clauses;
      Return (dict_get R (pystr "IP"))) = Return (Some true).
Proof. repeat split; vm_compute; reflexivity. Qed.

(** The capital letters of "IP rights" cannot occur in a lower-cased ASCII
    text, so the phrase is found in no ASCII text at all. *)
Lemma ip_rights_not_in_ascii_text (U : unicode_db) (text : str) :
  forallb is_ascii text = true ->
  phrase_found U (str_lower U text) (pystr "IP rights") = false.
Proof.
  intros Hascii. destruct (phrase_found U (str_lower U text) (pystr "IP rights")) eqn:E;
    [exfalso | reflexivity].
  apply phrase_found_spec in E as (pre & post & Heq & _).
  unfold str_lower in Heq. rewrite Hascii in Heq.
  assert (Hin : In 73 (map ascii_lower text)).
  { rewrite Heq. apply in_or_app. right. left. reflexivity. }
  apply in_map_iff in Hin as (c & Hc & _).
  unfold ascii_lower, ascii_isupper, in_range in Hc.
  destruct ((65 <=? c) && (c <=? 90)) eqn:Eu.
  - apply andb_true_iff in Eu as [Hlo _]. apply N.leb_le in Hlo. lia.
  - subst c. discriminate Eu.
Qed.

(** The legal scenario of the specification does not come out as stated:
    "terminated" is not one of the Termination phrases. *)
Lemma legal_scenario_counterexample :
  ~ exists U : unicode_db,
      check_clauses U LEGAL_SCENARIO legal_clauses
      = Return [ (pystr "Indemnification", false); (pystr "Termination", true);
                 (pystr "Confidentiality", true); (pystr "Limitation of Liability", false) ].
Proof. intros [U H]. vm_compute in H. discriminate H. Qed.

(** C4 (amended). On the legal scenario the report is: Indemnification
    absent, Termination absent, Confidentiality present (through "nda"),
    Limitation of Liability absent. *)
Theorem legal_scenario_report (U : unicode_db) :
  check_clauses U LEGAL_SCENARIO legal_clauses
  = Return [ (pystr "Indemnification", false); (pystr "Termination", false);
             (pystr "Confidentiality", true); (pystr "Limitation of Liability", false) ].
Proof. vm_compute. reflexivity. Qed.

(** ** Text extraction *)

Lemma pdf_loop_spec (pages : list (option str)) :
  forall text : list str, pdf_loop pages text = text ++ nonempty_page_texts pages.
Proof.
  unfold nonempty_page_texts.
  induction pages as [|[[|c t]|] rest IH]; intros text; simpl.
  - rewrite app_nil_r. reflexivity.
  - apply IH.
  - rewrite IH, <- app_assoc. reflexivity.
  - apply IH.
Qed.

Lemma elem_of_nonempty_page_texts (pages : list (option str)) (t : str) :
  t ∈ nonempty_page_texts pages <-> Some t ∈ pages /\ t <> [].
Proof.
  unfold nonempty_page_texts.
  induction pages as [|[[|c u]|] rest IH]; simpl.
  - rewrite !elem_of_nil. tauto.
  - rewrite IH, elem_of_cons. split; [tauto|].
    intros [[[= ->]|H] Hne]; [congruence | tauto].
  - rewrite !elem_of_cons, IH. split.
    + intros [->|[H Hne]]; [split; [left; reflexivity | discriminate] | tauto].
    + intros [[[= ->]|H] Hne]; [left; reflexivity | tauto].
  - rewrite IH, elem_of_cons. split; [tauto|].
    intros [[[=]|H] Hne]. tauto.
Qed.

Lemma nonempty_page_texts_sublist (pages : list (option str)) :
  sublist (map Some (nonempty_page_texts pages)) pages.
Proof.
  unfold nonempty_page_texts.
  induction pages as [|[[|c u]|] rest IH]; simpl.
  - constructor.
  - apply sublist_cons, IH.
  - apply sublist_skip, IH.
  - apply sublist_cons, IH.
Qed.

Lemma nonempty_page_texts_all_empty (pages : list (option str)) :
  Forall (fun p => truthy p = false) pages -> nonempty_page_texts pages = [].
Proof.
  unfold nonempty_page_texts. induction 1 as [|p rest Hp _ IH]; [reflexivity|].
  simpl. rewrite Hp. exact IH.
Qed.

Lemma text_type_is_not_docx_or_pdf (t : str) :
  startswith t (pystr "text/") = true ->
  str_eqb t DOCX_TYPE = false /\ str_eqb t PDF_TYPE = false.
Proof.
  intros H. apply startswith_app in H as [rest ->]. split; reflexivity.
Qed.

Section ExtractionFacts.
Variable Document_paragraphs : UploadedFile -> result (list str).
Variable PdfReader_pages : UploadedFile -> result (list (option str)).

(** C8. The text of a PDF is the texts of its pages, in page order,
    without the pages whose text is empty or absent, joined by one
    newline between consecutive pages. *)
Theorem pdf_text_is_joined_pages (file : UploadedFile) (pages : list (option str)) :
  PdfReader_pages file = Return pages ->
  extract_text_from_pdf PdfReader_pages file
  = Return (join NEWLINE (nonempty_page_texts pages))
  /\ nonempty_page_texts pages = omap id (List.filter truthy pages)
  /\ sublist (map Some (nonempty_page_texts pages)) pages
  /\ (forall t, t ∈ nonempty_page_texts pages <-> Some t ∈ pages /\ t <> [])
  /\ (forall p q rest, join NEWLINE (p :: q :: rest) = p ++ [10] ++ join NEWLINE (q :: rest))
  /\ (forall p, join NEWLINE [p] = p)
  /\ join NEWLINE [] = [].
Proof.
  intros Hpages. split.
  - unfold extract_text_from_pdf. rewrite Hpages. cbn [mbind result_bind].
    rewrite pdf_loop_spec. reflexivity.
  - split; [reflexivity|]. split; [apply nonempty_page_texts_sublist|].
    split; [apply elem_of_nonempty_page_texts|]. repeat split.
Qed.

(** C5. A plain-text file holding the bytes of "Hello\nWorld" extracts
    to exactly that string; a file whose declared type is none of the
    three recognised ones yields [None], the failure signal, and no
    exception. *)
Theorem plain_text_and_unrecognised_types :
  (forall file : UploadedFile,
     startswith (type file) (pystr "text/") = true ->
     getvalue file = HELLO_WORLD_BYTES ->
     extract_text Document_paragraphs PdfReader_pages file = Return (Some HELLO_WORLD))
  /\ (forall file : UploadedFile,
        type file <> DOCX_TYPE ->
        type file <> PDF_TYPE ->
        startswith (type file) (pystr "text/") = false ->
        extract_text Document_paragraphs PdfReader_pages file = Return None).
Proof.
  split.
  - intros file Htype Hbytes. unfold extract_text.
    destruct (text_type_is_not_docx_or_pdf _ Htype) as [-> ->].
    rewrite Htype, Hbytes. reflexivity.
  - intros file Hdocx Hpdf Htext. unfold extract_text.
    apply str_eqb_neq in Hdocx, Hpdf. rewrite Hdocx, Hpdf, Htext. reflexivity.
Qed.

(** C10. A file declared as text whose bytes are not valid UTF-8 makes
    [extract_text] raise [UnicodeDecodeError]; [None] is returned only for
    a declared type that is none of the recognised ones. *)
Theorem undecodable_text_raises :
  (forall file : UploadedFile,
     startswith (type file) (pystr "text/") = true ->
     utf8_code_points (map Byte.to_N (getvalue file)) = None ->
     extract_text Document_paragraphs PdfReader_pages file = Raise UnicodeDecodeError)
  /\ (forall file : UploadedFile,
        extract_text Document_paragraphs PdfReader_pages file = Return None ->
        type file <> DOCX_TYPE
        /\ type file <> PDF_TYPE
        /\ startswith (type file) (pystr "text/") = false).
Proof.
  split.
  - intros file Htype Hbad. unfold extract_text, decode_utf8.
    destruct (text_type_is_not_docx_or_pdf _ Htype) as [-> ->].
    rewrite Htype, Hbad. reflexivity.
  - intros file. unfold extract_text.
    destruct (str_eqb (type file) DOCX_TYPE) eqn:Ed.
    { destruct (extract_text_from_docx Document_paragraphs file); discriminate. }
    destruct (str_eqb (type file) PDF_TYPE) eqn:Ep.
    { destruct (extract_text_from_pdf PdfReader_pages file); discriminate. }
    destruct (startswith (type file) (pystr "text/")) eqn:Et.
    { destruct (decode_utf8 (getvalue file)); discriminate. }
    intros _. apply str_eqb_neq in Ed, Ep. auto.
Qed.
End ExtractionFacts.

(** Four pages, two of them without text. *)
Lemma pdf_text_is_joined_pages_witness :
  sample_pages BLANK_PDF = Return [Some (pystr "A"); None; Some []; Some (pystr "B")]
  /\ extract_text_from_pdf sample_pages BLANK_PDF = Return (pystr "A" ++ [10] ++ pystr "B").
Proof.
  split; [reflexivity|].
  exact (proj1 (pdf_text_is_joined_pages sample_pages BLANK_PDF _ eq_refl)).
Defined.

(** A plain-text upload and an image upload. *)
Lemma plain_text_and_unrecognised_types_witness :
  extract_text no_docx no_pdf PLAIN_HELLO = Return (Some HELLO_WORLD)
  /\ extract_text no_docx no_pdf PNG_FILE = Return None.
Proof.
  split.
  - apply (proj1 (plain_text_and_unrecognised_types no_docx no_pdf)); reflexivity.
  - apply (proj2 (plain_text_and_unrecognised_types no_docx no_pdf));
      [discriminate | discriminate | reflexivity].
Defined.

(** A text upload that ends in the byte 0xFF. *)
Lemma undecodable_text_raises_witness :
  startswith (type BAD_TEXT) (pystr "text/") = true
  /\ utf8_code_points (map Byte.to_N (getvalue BAD_TEXT)) = None
  /\ extract_text no_docx no_pdf BAD_TEXT = Raise UnicodeDecodeError.
Proof.
  split; [reflexivity|]. split; [reflexivity|].
  apply (proj1 (undecodable_text_raises no_docx no_pdf)); reflexivity.
Defined.

(** Strict decoding: what is and is not accepted. *)
Lemma utf8_examples :
  utf8_code_points [72; 105] = Some [72; 105]
  /\ utf8_code_points [195; 169] = Some [233]
  /\ utf8_code_points [226; 130; 172] = Some [8364]
  /\ utf8_code_points [240; 159; 147; 156] = Some [128220]
  /\ utf8_code_points [255] = None
  /\ utf8_code_points [192; 128] = None
  /\ utf8_code_points [237; 160; 128] = None
  /\ utf8_code_points [226; 130] = None
  /\ utf8_code_points [244; 144; 128; 128] = None.
Proof. repeat split. Qed.

(** ** The analysis run *)

(** How the steps of a run compose. *)
Lemma bind_show {A} (e : ui_event) (f : unit -> script A) (w : world) :
  (show e ≫= f) w = f tt {| shown := shown w ++ [e]; sent := sent w |}.
Proof. reflexivity. Qed.

Lemma bind_lift_return {A B} (a : A) (f : A -> script B) (w : world) :
  (lift (Return a) ≫= f) w = f a w.
Proof. reflexivity. Qed.

Lemma bind_create {A} (completion : list request -> request -> result str)
    (req : request) (f : str -> script A) (w : world) :
  (create completion req ≫= f) w
  = match completion (sent w) req with
    | Return a => f a {| shown := shown w; sent := sent w ++ [req] |}
    | Raise e => ({| shown := shown w; sent := sent w ++ [req] |}, Raise e)
    end.
Proof. unfold create, mbind, script_bind. destruct (completion (sent w) req); reflexivity. Qed.

Section MainFacts.
Variable U : unicode_db.
Variable Document_paragraphs : UploadedFile -> result (list str).
Variable PdfReader_pages : UploadedFile -> result (list (option str)).
Variable completion : list request -> request -> result str.

Lemma main_rejects_falsy (file : UploadedFile) (text : option str) (button : bool)
    (w : world) :
  extract_text Document_paragraphs PdfReader_pages file = Return text ->
  truthy text = false ->
  main U Document_paragraphs PdfReader_pages completion (Some file) button w
  = (rejected w, Return tt).
Proof.
  intros Hx Hfalsy. unfold main, rejected.
  rewrite !bind_show, Hx, bind_lift_return.
  destruct text as [[|c t]|]; [| discriminate Hfalsy |];
    unfold show; cbn [shown sent]; rewrite <- !app_assoc; reflexivity.
Qed.

(** C7 (amended). The narrative calls run one after the other with no
    handler around them.  When the summary and obligations calls succeed
    and the dates call fails, [main] ends with that failure: the
    termination and confidentiality requests are never sent, the clause
    checks are not run, and nothing of the analysis is displayed. *)
Theorem dates_failure_aborts_the_run (file : UploadedFile) (text : str) (w : world)
    (summary obligations : str) (e : exn) :
  extract_text Document_paragraphs PdfReader_pages file = Return (Some text) ->
  text <> [] ->
  completion (sent w) (summarize_request text) = Return summary ->
  completion (sent w ++ [summarize_request text]) (get_obligations_request text)
  = Return obligations ->
  completion (sent w ++ [summarize_request text; get_obligations_request text])
    (extract_important_dates_request text) = Raise e ->
  main U Document_paragraphs PdfReader_pages completion (Some file) true w
  = ({| shown := shown w ++ [ st_title TITLE;
                              st_spinner (pystr "Extracting text from file...");
                              st_subheader PREVIEW_HEADER;
                              st_write (preview text);
                              st_spinner (pystr "Analyzing...") ];
        sent := sent w ++ [ summarize_request text;
                            get_obligations_request text;
                            extract_important_dates_request text ] |},
     Raise e).
Proof.
  intros Hx Hne Hs Ho Hd. unfold main.
  rewrite !bind_show, Hx, bind_lift_return.
  destruct text as [|c t]; [congruence|].
  rewrite !bind_show.
  unfold analyze, summarize, get_obligations, extract_important_dates.
  rewrite bind_show, bind_create. cbn [shown sent]. rewrite Hs.
  rewrite bind_create. cbn [shown sent]. rewrite Ho.
  rewrite bind_create. cbn [shown sent].
  rewrite <- !app_assoc. cbn [List.app]. rewrite Hd. reflexivity.
Qed.
End MainFacts.

(** A PDF with nothing but blank pages extracts to the empty string: a
    returned value, not the failure signal. *)
Lemma blank_pdf_counterexample :
  extract_text no_docx blank_pages BLANK_PDF = Return (Some [])
  /\ extract_text no_docx blank_pages BLANK_PDF <> Return None
  /\ forall e, extract_text no_docx blank_pages BLANK_PDF <> Raise e.
Proof. repeat split; discriminate. Qed.

(** The independent-failure scenario: the service fails on the dates
    request only, and the run is aborted as a whole. *)
Lemma dates_failure_counterexample :
  (forall h text,
     dates_fail h (summarize_request text) = Return (pystr "ok")
     /\ dates_fail h (get_obligations_request text) = Return (pystr "ok")
     /\ dates_fail h (extract_important_dates_request text)
        = Raise (RemoteCallFailure (pystr "dates"))
     /\ dates_fail h (extract_termination_clauses_request text) = Return (pystr "ok")
     /\ dates_fail h (highlight_confidentiality_noncompete_request text) = Return (pystr "ok"))
  /\ main ascii_only_db no_docx no_pdf dates_fail (Some NOTICE_FILE) true empty_world
     = ({| shown := [ st_title TITLE;
                      st_spinner (pystr "Extracting text from file...");
                      st_subheader PREVIEW_HEADER;
                      st_write NOTICE_TEXT;
                      st_spinner (pystr "Analyzing...") ];
           sent := [ summarize_request NOTICE_TEXT;
                     get_obligations_request NOTICE_TEXT;
                     extract_important_dates_request NOTICE_TEXT ] |},
        Raise (RemoteCallFailure (pystr "dates"))).
Proof.
  split; [intros h text; repeat split | vm_compute; reflexivity].
Qed.

(** The same run, obtained from the general statement. *)
Lemma dates_failure_aborts_the_run_witness :
  main ascii_only_db no_docx no_pdf dates_fail (Some NOTICE_FILE) true empty_world
  = ({| shown := [ st_title TITLE;
                   st_spinner (pystr "Extracting text from file...");
                   st_subheader PREVIEW_HEADER;
                   st_write (preview NOTICE_TEXT);
                   st_spinner (pystr "Analyzing...") ];
        sent := [ summarize_request NOTICE_TEXT;
                  get_obligations_request NOTICE_TEXT;
                  extract_important_dates_request NOTICE_TEXT ] |},
     Raise (RemoteCallFailure (pystr "dates"))).
Proof.
  apply (dates_failure_aborts_the_run ascii_only_db no_docx no_pdf dates_fail
           NOTICE_FILE NOTICE_TEXT empty_world (pystr "ok") (pystr "ok")).
  - reflexivity.
  - discriminate.
  - reflexivity.
  - reflexivity.
  - reflexivity.
Defined.

(** * Further properties *)

(** ** The clause checker on unusual texts and phrases *)

Lemma NoDup_keys_builtin : NoDup (keys commercial_clauses) /\ NoDup (keys legal_clauses).
Proof.
  split; apply NoDup_ListNoDup;
    repeat (constructor; [cbv; intuition discriminate|]); constructor.
Qed.

(** X1. With distinct clause names the report lists the clauses in the
    taxonomy's order, and the entry of a clause depends on nothing but the
    text and the clause's own synonyms: two taxonomies that give a clause
    the same synonyms report the same for it. *)
Theorem report_follows_taxonomy (U : unicode_db) (text : str) (T1 T2 : dict (list str))
    (clause : str) (keywords : list str) :
  NoDup (keys T1) ->
  NoDup (keys T2) ->
  dict_get T1 clause = Some keywords ->
  dict_get T2 clause = Some keywords ->
  exists R1 R2 : dict bool,
    check_clauses U text T1 = Return R1
    /\ check_clauses U text T2 = Return R2
    /\ keys R1 = keys T1
    /\ keys R2 = keys T2
    /\ dict_get R1 clause = Some (clause_present U (str_lower U text) keywords)
    /\ dict_get R2 clause = dict_get R1 clause.
Proof.
  intros Hnd1 Hnd2 Hget1 Hget2.
  exists (report_of U text T1), (report_of U text T2).
  split; [apply check_clauses_keys_order, Hnd1|].
  split; [apply check_clauses_keys_order, Hnd2|].
  assert (Hkeys : forall T : dict (list str), keys (report_of U text T) = keys T).
  { intros T. unfold keys, report_of. rewrite map_map. reflexivity. }
  split; [apply Hkeys|]. split; [apply Hkeys|].
  assert (Hget : forall T : dict (list str),
            NoDup (keys T) -> dict_get T clause = Some keywords ->
            dict_get (report_of U text T) clause
            = Some (clause_present U (str_lower U text) keywords)).
  { intros T Hnd Hg.
    pose proof (check_clauses_keys_order U text T Hnd) as Hrun.
    rewrite check_clauses_report in Hrun. injection Hrun as Hrun.
    unfold report_of. rewrite <- Hrun, report_from_get, Hg by exact Hnd. reflexivity. }
  rewrite (Hget T1 Hnd1 Hget1), (Hget T2 Hnd2 Hget2). split; reflexivity.
Qed.

Lemma report_follows_taxonomy_instance :
  exists R1 R2 : dict bool,
    check_clauses ascii_only_db LEGAL_SCENARIO legal_clauses = Return R1
    /\ check_clauses ascii_only_db LEGAL_SCENARIO
         [(pystr "Confidentiality", [pystr "confidentiality"; pystr "non-disclosure"; pystr "nda"])]
       = Return R2
    /\ keys R1 = keys legal_clauses
    /\ keys R2 = [pystr "Confidentiality"]
    /\ dict_get R1 (pystr "Confidentiality")
       = Some (clause_present ascii_only_db (str_lower ascii_only_db LEGAL_SCENARIO)
                 [pystr "confidentiality"; pystr "non-disclosure"; pystr "nda"])
    /\ dict_get R2 (pystr "Confidentiality") = dict_get R1 (pystr "Confidentiality").
Proof.
  apply (report_follows_taxonomy ascii_only_db LEGAL_SCENARIO legal_clauses
           [(pystr "Confidentiality",
             [pystr "confidentiality"; pystr "non-disclosure"; pystr "nda"])]
           (pystr "Confidentiality")
           [pystr "confidentiality"; pystr "non-disclosure"; pystr "nda"]).
  - exact (proj2 NoDup_keys_builtin).
  - apply NoDup_singleton.
  - reflexivity.
  - reflexivity.
Defined.

Lemma phrase_found_has_word (U : unicode_db) (s kw : str) :
  phrase_found U s kw = true -> exists c, c ∈ s /\ is_word U c = true.
Proof.
  intros H. apply phrase_found_spec in H as (pre & post & -> & H & _).
  destruct (last pre) as [c|] eqn:El.
  - destruct (is_word U c) eqn:Ec.
    + exists c. split; [|exact Ec].
      apply elem_of_app. left. apply last_Some_elem_of, El.
    + simpl in H. rewrite Ec in H. simpl in H.
      destruct (head (kw ++ post)) as [d|] eqn:Eh; [|discriminate H].
      exists d. split; [|exact H].
      apply elem_of_app. right. apply head_Some_elem_of, Eh.
  - simpl in H. destruct (head (kw ++ post)) as [d|] eqn:Eh; [|discriminate H].
    exists d. split; [|exact H].
    apply elem_of_app. right. apply head_Some_elem_of, Eh.
Qed.

Lemma clause_present_has_word (U : unicode_db) (s : str) (keywords : list str) :
  clause_present U s keywords = true -> exists c, c ∈ s /\ is_word U c = true.
Proof.
  unfold clause_present. rewrite existsb_exists.
  intros (kw & _ & H). exact (phrase_found_has_word U s kw H).
Qed.

(** X2. A text without a single word character (letter, digit or underscore,
    after lower-casing), and the empty text in particular, marks every
    clause of every taxonomy absent. *)
Theorem no_word_character_no_clause (U : unicode_db) (text : str) (T : dict (list str)) :
  (forall c, c ∈ str_lower U text -> is_word U c = false) ->
  exists R : dict bool,
    check_clauses U text T = Return R
    /\ forall (k : str) (b : bool), dict_get R k = Some b -> b = false.
Proof.
  intros Hnone. exists (report_from U (str_lower U text) T []).
  split; [apply check_clauses_report|].
  intros k b H. apply report_from_origin in H as [(keywords & _ & ->) | H]; [|discriminate H].
  destruct (clause_present U (str_lower U text) keywords) eqn:E; [|reflexivity].
  apply clause_present_has_word in E as (c & Hc & Hw).
  rewrite (Hnone c Hc) in Hw. discriminate Hw.
Qed.

Lemma no_word_character_no_clause_instance :
  (forall c, c ∈ str_lower ascii_only_db (pystr "--- ... ---") ->
             is_word ascii_only_db c = false)
  /\ (exists R : dict bool,
        check_clauses ascii_only_db (pystr "--- ... ---") commercial_clauses = Return R
        /\ forall (k : str) (b : bool), dict_get R k = Some b -> b = false)
  /\ (exists R : dict bool,
        check_clauses ascii_only_db [] legal_clauses = Return R
        /\ forall (k : str) (b : bool), dict_get R k = Some b -> b = false).
Proof.
  assert (Hnone : forall c, c ∈ str_lower ascii_only_db (pystr "--- ... ---") ->
                            is_word ascii_only_db c = false).
  { intros c Hc. apply list_elem_of_In in Hc. vm_compute in Hc.
    repeat (destruct Hc as [<-|Hc]; [reflexivity|]). destruct Hc. }
  split; [exact Hnone|]. split.
  - exact (no_word_character_no_clause ascii_only_db _ commercial_clauses Hnone).
  - apply no_word_character_no_clause. intros c Hc. apply elem_of_nil in Hc. destruct Hc.
Defined.

Lemma search_empty_phrase (U : unicode_db) (s : str) :
  forall prev : option N,
    search_from U (phrase_regex []) prev s = word_side U prev || existsb (is_word U) s.
Proof.
  induction s as [|c s IH]; intros prev.
  - simpl. unfold match_here. simpl.
    destruct (word_side U prev); reflexivity.
  - change (search_from U (phrase_regex []) prev (c :: s))
      with (match_here U (phrase_regex []) prev (c :: s)
            || search_from U (phrase_regex []) (Some c) s).
    rewrite IH. unfold match_here. simpl.
    destruct (word_side U prev), (is_word U c); reflexivity.
Qed.

(** X3. An empty synonym is found in exactly the texts that have a word
    character; so a clause that lists the empty phrase is marked present
    in exactly those texts, whatever its other phrases. *)
Theorem empty_phrase_matches_any_word (U : unicode_db) (text : str) (T : dict (list str))
    (clause : str) (keywords : list str) :
  NoDup (keys T) ->
  dict_get T clause = Some keywords ->
  [] ∈ keywords ->
  (forall s : str,
     re_search U (pystr "\b" ++ re_escape [] ++ pystr "\b") s
     = Return (existsb (is_word U) s))
  /\ exists R : dict bool,
       check_clauses U text T = Return R
       /\ (dict_get R clause = Some true
           <-> exists c, c ∈ str_lower U text /\ is_word U c = true).
Proof.
  intros Hnd Hget Hin.
  assert (Hfound : forall s, phrase_found U s [] = existsb (is_word U) s).
  { intros s. unfold phrase_found. rewrite search_empty_phrase. reflexivity. }
  split.
  { intros s. rewrite <- Hfound. apply (re_search_phrase U s []). }
  exists (report_from U (str_lower U text) T []).
  split; [apply check_clauses_report|].
  rewrite report_from_get, Hget by exact Hnd. split.
  - intros [= H]. exact (clause_present_has_word U _ keywords H).
  - intros (c & Hc & Hw). f_equal.
    unfold clause_present. apply existsb_exists. exists [].
    split; [apply list_elem_of_In, Hin|].
    rewrite Hfound. apply existsb_exists. exists c.
    split; [apply list_elem_of_In, Hc | exact Hw].
Qed.

(** A clause that lists only the empty phrase, on a text of one letter and
    on a text of dashes. *)
Lemma empty_phrase_matches_any_word_instance :
  (exists R : dict bool,
     check_clauses ascii_only_db (pystr "x") [(pystr "Any", [[]])] = Return R
     /\ (dict_get R (pystr "Any") = Some true
         <-> exists c, c ∈ str_lower ascii_only_db (pystr "x")
                       /\ is_word ascii_only_db c = true))
  /\ (exists R : dict bool,
        check_clauses ascii_only_db (pystr "--") [(pystr "Any", [[]])] = Return R
        /\ (dict_get R (pystr "Any") = Some true
            <-> exists c, c ∈ str_lower ascii_only_db (pystr "--")
                          /\ is_word ascii_only_db c = true)).
Proof.
  split.
  - refine (proj2 (empty_phrase_matches_any_word ascii_only_db (pystr "x")
                     [(pystr "Any", [[]])] (pystr "Any") [[]] _ _ _)).
    + apply NoDup_singleton.
    + reflexivity.
    + apply list_elem_of_here.
  - refine (proj2 (empty_phrase_matches_any_word ascii_only_db (pystr "--")
                     [(pystr "Any", [[]])] (pystr "Any") [[]] _ _ _)).
    + apply NoDup_singleton.
    + reflexivity.
    + apply list_elem_of_here.
Defined.

Lemma ascii_lower_not_upper (c : N) : ascii_isupper (ascii_lower c) = false.
Proof.
  unfold ascii_lower. destruct (ascii_isupper c) eqn:E; [|exact E].
  unfold ascii_isupper, in_range in *.
  apply andb_true_iff in E as [Hlo Hhi]. apply N.leb_le in Hlo, Hhi.
  apply andb_false_iff. right. apply N.leb_gt. lia.
Qed.

Lemma phrase_with_capital_not_found (U : unicode_db) (text phrase : str) :
  forallb is_ascii text = true ->
  has_ascii_upper phrase = true ->
  phrase_found U (str_lower U text) phrase = false.
Proof.
  intros Hascii Hup.
  destruct (phrase_found U (str_lower U text) phrase) eqn:E; [exfalso | reflexivity].
  apply phrase_found_spec in E as (pre & post & Heq & _).
  unfold str_lower in Heq. rewrite Hascii in Heq.
  apply existsb_exists in Hup as (c & Hc & Hupper).
  assert (Hin : In c (map ascii_lower text)).
  { rewrite Heq. apply in_or_app. right. apply in_or_app. left. exact Hc. }
  apply in_map_iff in Hin as (d & <- & _).
  rewrite ascii_lower_not_upper in Hupper. discriminate Hupper.
Qed.

(** X4. A clause all of whose phrases contain an upper-case ASCII letter is
    marked absent in every ASCII text: the text is lower-cased, the
    phrases are not. *)
Theorem capitalised_phrases_never_match (U : unicode_db) (text : str)
    (T : dict (list str)) (clause : str) (keywords : list str) :
  NoDup (keys T) ->
  dict_get T clause = Some keywords ->
  forallb is_ascii text = true ->
  forallb has_ascii_upper keywords = true ->
  exists R : dict bool,
    check_clauses U text T = Return R /\ dict_get R clause = Some false.
Proof.
  intros Hnd Hget Hascii Hup.
  exists (report_from U (str_lower U text) T []).
  split; [apply check_clauses_report|].
  rewrite report_from_get, Hget by exact Hnd. f_equal.
  unfold clause_present.
  destruct (existsb (phrase_found U (str_lower U text)) keywords) eqn:E; [|reflexivity].
  apply existsb_exists in E as (kw & Hin & Hfound).
  rewrite forallb_forall in Hup.
  rewrite (phrase_with_capital_not_found U text kw Hascii (Hup kw Hin)) in Hfound.
  discriminate Hfound.
Qed.

Lemma capitalised_phrases_never_match_instance :
  exists R : dict bool,
    check_clauses ascii_only_db (pystr "Non-Disclosure and NDA")
      [(pystr "Confidentiality", [pystr "Non-Disclosure"; pystr "NDA"])] = Return R
    /\ dict_get R (pystr "Confidentiality") = Some false.
Proof.
  apply (capitalised_phrases_never_match ascii_only_db (pystr "Non-Disclosure and NDA")
           [(pystr "Confidentiality", [pystr "Non-Disclosure"; pystr "NDA"])]
           (pystr "Confidentiality") [pystr "Non-Disclosure"; pystr "NDA"]).
  - apply NoDup_singleton.
  - reflexivity.
  - reflexivity.
  - reflexivity.
Defined.

(** X5. The case of an ASCII text does not matter: two ASCII texts that differ
    only in the case of their letters get the same report. *)
Theorem report_ignores_text_case (U : unicode_db) (text1 text2 : str)
    (T : dict (list str)) :
  forallb is_ascii text1 = true ->
  forallb is_ascii text2 = true ->
  Forall2 (fun a b => ascii_lower a = ascii_lower b) text1 text2 ->
  check_clauses U text1 T = check_clauses U text2 T.
Proof.
  intros H1 H2 Hsame. unfold check_clauses, str_lower. rewrite H1, H2.
  replace (map ascii_lower text2) with (map ascii_lower text1); [reflexivity|].
  clear H1 H2. induction Hsame as [|a b t1 t2 Hab _ IH]; [reflexivity|].
  simpl. rewrite Hab, IH. reflexivity.
Qed.

Lemma report_ignores_text_case_instance :
  check_clauses ascii_only_db (pystr "An NDA") legal_clauses
  = check_clauses ascii_only_db (pystr "aN nda") legal_clauses.
Proof.
  apply (report_ignores_text_case ascii_only_db (pystr "An NDA") (pystr "aN nda")).
  - reflexivity.
  - reflexivity.
  - repeat constructor.
Defined.

Lemma clause_present_permutation (U : unicode_db) (s : str) (k1 k2 : list str) :
  k1 ≡ₚ k2 -> clause_present U s k1 = clause_present U s k2.
Proof.
  unfold clause_present. induction 1 as [|x l l' _ IH|x y l|l l' l'' _ IH1 _ IH2]; simpl.
  - reflexivity.
  - rewrite IH. reflexivity.
  - destruct (phrase_found U s x), (phrase_found U s y); reflexivity.
  - rewrite IH1. exact IH2.
Qed.

(** X6. The order of the synonyms of a clause does not matter (nor does the
    early exit of [any]): two taxonomies with the same clause names whose
    synonym lists are rearrangements of each other give the same report. *)
Theorem synonym_order_is_irrelevant (U : unicode_db) (text : str)
    (T1 T2 : dict (list str)) :
  Forall2 (fun a b => fst a = fst b /\ snd a ≡ₚ snd b) T1 T2 ->
  check_clauses U text T1 = check_clauses U text T2.
Proof.
  intros Hperm. rewrite !check_clauses_report. f_equal.
  generalize (@nil (str * bool)) as results.
  induction Hperm as [|[k1 kws1] [k2 kws2] T1 T2 [Hk Hp] _ IH]; intros results.
  - reflexivity.
  - unfold report_from in *. simpl in *. subst k2.
    rewrite (clause_present_permutation U _ kws1 kws2 Hp). apply IH.
Qed.

Lemma synonym_order_is_irrelevant_instance :
  check_clauses ascii_only_db LEGAL_SCENARIO
    [(pystr "Confidentiality", [pystr "confidentiality"; pystr "nda"])]
  = check_clauses ascii_only_db LEGAL_SCENARIO
      [(pystr "Confidentiality", [pystr "nda"; pystr "confidentiality"])].
Proof.
  apply (synonym_order_is_irrelevant ascii_only_db LEGAL_SCENARIO).
  constructor; [|constructor]. split; [reflexivity|]. apply perm_swap.
Defined.

(** ** Extraction: DOCX, PDF and text files *)

Lemma join_nil_iff (parts : list str) :
  join NEWLINE parts = [] <-> parts = [] \/ parts = [[]].
Proof.
  destruct parts as [|p [|q rest]]; simpl.
  - split; auto.
  - split; [intros ->; auto | intros [[=]|[= ->]]; reflexivity].
  - split; [|intros [[=]|[=]]].
    intros H. apply app_eq_nil in H as [_ H]. discriminate H.
Qed.

Lemma join_app (a b : list str) :
  a <> [] -> b <> [] ->
  join NEWLINE (a ++ b) = join NEWLINE a ++ NEWLINE ++ join NEWLINE b.
Proof.
  intros Ha Hb. induction a as [|p [|q rest] IH]; [congruence| |].
  - destruct b as [|r b']; [congruence|]. reflexivity.
  - change (join NEWLINE ((p :: q :: rest) ++ b))
      with (p ++ NEWLINE ++ join NEWLINE ((q :: rest) ++ b)).
    rewrite IH by discriminate.
    change (join NEWLINE (p :: q :: rest)) with (p ++ NEWLINE ++ join NEWLINE (q :: rest)).
    rewrite <- !app_assoc. reflexivity.
Qed.

Lemma split_newline_line (p : str) :
  10 ∉ p -> split_newline p = [p].
Proof.
  induction p as [|c p IH]; intros Hn; [reflexivity|].
  apply not_elem_of_cons in Hn as [Hc Hp]. simpl.
  destruct (N.eqb_spec c 10) as [->|_]; [congruence|].
  rewrite IH by exact Hp. reflexivity.
Qed.

Lemma split_newline_app (p rest : str) :
  10 ∉ p -> split_newline (p ++ 10 :: rest) = p :: split_newline rest.
Proof.
  induction p as [|c p IH]; intros Hn; [reflexivity|].
  apply not_elem_of_cons in Hn as [Hc Hp]. simpl.
  destruct (N.eqb_spec c 10) as [->|_]; [congruence|].
  rewrite IH by exact Hp. reflexivity.
Qed.

Lemma split_join (parts : list str) :
  parts <> [] -> Forall (fun p => 10 ∉ p) parts ->
  split_newline (join NEWLINE parts) = parts.
Proof.
  intros Hne Hall. induction Hall as [|p [|q rest] Hp Hrest IH]; [congruence| |].
  - apply split_newline_line, Hp.
  - change (join NEWLINE (p :: q :: rest)) with (p ++ 10 :: join NEWLINE (q :: rest)).
    rewrite split_newline_app by exact Hp. rewrite IH by discriminate. reflexivity.
Qed.

Lemma nonempty_page_texts_app (p1 p2 : list (option str)) :
  nonempty_page_texts (p1 ++ p2) = nonempty_page_texts p1 ++ nonempty_page_texts p2.
Proof.
  unfold nonempty_page_texts. rewrite List.filter_app. apply omap_app.
Qed.

Lemma nonempty_page_texts_nil (pages : list (option str)) :
  nonempty_page_texts pages = [] <-> Forall (fun p => truthy p = false) pages.
Proof.
  split; [|apply nonempty_page_texts_all_empty].
  unfold nonempty_page_texts.
  induction pages as [|[[|c t]|] rest IH]; simpl; intros H.
  - constructor.
  - constructor; [reflexivity | exact (IH H)].
  - discriminate H.
  - constructor; [reflexivity | exact (IH H)].
Qed.

Section MoreExtractionFacts.
Variable Document_paragraphs : UploadedFile -> result (list str).
Variable PdfReader_pages : UploadedFile -> result (list (option str)).

(** X10. The text of a DOCX is empty exactly when the document has no
    paragraph or a single empty one; empty paragraphs are kept as empty
    lines, so two empty paragraphs already give a non-empty text. *)
Theorem docx_text_empty_iff (file : UploadedFile) (paragraphs : list str) :
  Document_paragraphs file = Return paragraphs ->
  (extract_text_from_docx Document_paragraphs file = Return []
   <-> paragraphs = [] \/ paragraphs = [[]])
  /\ (forall n, extract_text_from_docx (docx_of (repeat [] (S (S n)))) file
                = Return (repeat 10 (S n))).
Proof.
  intros Hdoc. split.
  - unfold extract_text_from_docx. rewrite Hdoc. cbn [mbind result_bind].
    rewrite <- join_nil_iff. split; [intros [= ->]; reflexivity | intros ->; reflexivity].
  - intros n. unfold extract_text_from_docx, docx_of. cbn [mbind result_bind]. f_equal.
    induction n as [|n IH]; [reflexivity|].
    change (repeat [] (S (S (S n)))) with (@nil N :: repeat [] (S (S n))).
    change (join NEWLINE ([] :: repeat [] (S (S n))))
      with (10 :: join NEWLINE (repeat [] (S (S n)))).
    rewrite IH. reflexivity.
Qed.

(** X11. When no paragraph contains a newline, the paragraphs of a DOCX can be
    read back from the extracted text: splitting it at newlines gives the
    paragraphs, in order, empty ones included. *)
Theorem docx_paragraphs_recoverable (file : UploadedFile) (paragraphs : list str) :
  Document_paragraphs file = Return paragraphs ->
  paragraphs <> [] ->
  Forall (fun p => 10 ∉ p) paragraphs ->
  exists text,
    extract_text_from_docx Document_paragraphs file = Return text
    /\ split_newline text = paragraphs.
Proof.
  intros Hdoc Hne Hall. exists (join NEWLINE paragraphs). split.
  - unfold extract_text_from_docx. rewrite Hdoc. reflexivity.
  - apply split_join; assumption.
Qed.

(** X12. The text of a PDF is empty exactly when every page is blank (its text
    empty or absent). *)
Theorem pdf_text_empty_iff (file : UploadedFile) (pages : list (option str)) :
  PdfReader_pages file = Return pages ->
  extract_text_from_pdf PdfReader_pages file = Return []
  <-> Forall (fun p => truthy p = false) pages.
Proof.
  intros Hpages. unfold extract_text_from_pdf. rewrite Hpages. cbn [mbind result_bind].
  rewrite pdf_loop_spec. cbn [app]. rewrite <- nonempty_page_texts_nil. split.
  - intros [= H]. apply join_nil_iff in H as [H|H]; [exact H|].
    assert (Hin : [] ∈ nonempty_page_texts pages) by (rewrite H; apply list_elem_of_here).
    apply elem_of_nonempty_page_texts in Hin as [_ Hne]. congruence.
  - intros ->. reflexivity.
Qed.

(** X13. Extraction follows the page sequence: the text of a PDF whose pages are
    those of one document followed by those of another, each with some
    text, is the two texts with one newline between them. *)
Theorem pdf_text_of_concatenation (file file1 file2 : UploadedFile)
    (pages1 pages2 : list (option str)) (text1 text2 : str) :
  PdfReader_pages file1 = Return pages1 ->
  PdfReader_pages file2 = Return pages2 ->
  PdfReader_pages file = Return (pages1 ++ pages2) ->
  extract_text_from_pdf PdfReader_pages file1 = Return text1 ->
  extract_text_from_pdf PdfReader_pages file2 = Return text2 ->
  text1 <> [] -> text2 <> [] ->
  extract_text_from_pdf PdfReader_pages file = Return (text1 ++ [10] ++ text2).
Proof.
  intros H1 H2 H. unfold extract_text_from_pdf. rewrite H1, H2, H.
  cbn [mbind result_bind]. rewrite !pdf_loop_spec. cbn [app].
  intros [= <-] [= <-] Hne1 Hne2. f_equal.
  rewrite nonempty_page_texts_app. apply join_app.
  - intros E. rewrite E in Hne1. apply Hne1. reflexivity.
  - intros E. rewrite E in Hne2. apply Hne2. reflexivity.
Qed.
End MoreExtractionFacts.

Lemma docx_text_empty_iff_instance :
  docx_of [[]; []] DOCX_FILE = Return [[]; []]
  /\ extract_text_from_docx (docx_of [[]; []]) DOCX_FILE = Return [10]
  /\ (extract_text_from_docx (docx_of [[]; []]) DOCX_FILE = Return []
      <-> [[]; []] = @nil str \/ [[]; []] = [@nil N]).
Proof.
  split; [reflexivity|]. split; [reflexivity|].
  exact (proj1 (docx_text_empty_iff (docx_of [[]; []]) DOCX_FILE [[]; []] eq_refl)).
Defined.

Lemma docx_paragraphs_recoverable_instance :
  exists text,
    extract_text_from_docx (docx_of [pystr "Title"; []; pystr "Body"]) DOCX_FILE
    = Return text
    /\ split_newline text = [pystr "Title"; []; pystr "Body"].
Proof.
  apply (docx_paragraphs_recoverable (docx_of [pystr "Title"; []; pystr "Body"])
           DOCX_FILE [pystr "Title"; []; pystr "Body"]).
  - reflexivity.
  - discriminate.
  - repeat constructor; intros Hin; apply list_elem_of_In in Hin; cbv in Hin;
      intuition discriminate.
Defined.

Lemma pdf_text_empty_iff_instance :
  blank_pages BLANK_PDF = Return [None; Some []]
  /\ (extract_text_from_pdf blank_pages BLANK_PDF = Return []
      <-> Forall (fun p => truthy p = false) [None; Some []]).
Proof.
  split; [reflexivity|].
  exact (pdf_text_empty_iff blank_pages BLANK_PDF [None; Some []] eq_refl).
Defined.

Lemma pdf_text_of_concatenation_instance :
  extract_text_from_pdf
    (fun f => if str_eqb (type f) (pystr "1") then Return [Some (pystr "A"); None]
              else if str_eqb (type f) (pystr "2") then Return [Some []; Some (pystr "B")]
              else Return ([Some (pystr "A"); None] ++ [Some []; Some (pystr "B")]))
    BLANK_PDF
  = Return (pystr "A" ++ [10] ++ pystr "B").
Proof.
  apply (pdf_text_of_concatenation _ BLANK_PDF
           {| type := pystr "1"; getvalue := [] |} {| type := pystr "2"; getvalue := [] |}
           [Some (pystr "A"); None] [Some []; Some (pystr "B")]);
    try reflexivity; discriminate.
Defined.

(** ** Text files and UTF-8 *)

Lemma utf8_step1 (b0 : N) (rest : list N) :
  (b0 <? 128) = true ->
  utf8_code_points (b0 :: rest) = cons b0 <$> utf8_code_points rest.
Proof. intros H. cbn [utf8_code_points]. rewrite H. reflexivity. Qed.

Lemma utf8_step2 (b0 b1 : N) (rest : list N) :
  (b0 <? 128) = false -> in_range 194 223 b0 = true -> is_continuation b1 = true ->
  utf8_code_points (b0 :: b1 :: rest)
  = cons ((b0 - 192) * 64 + cont_bits b1) <$> utf8_code_points rest.
Proof. intros H1 H2 H3. cbn [utf8_code_points]. rewrite H1, H2, H3. reflexivity. Qed.

Lemma utf8_step3 (b0 b1 b2 : N) (rest : list N) :
  (b0 <? 128) = false -> in_range 194 223 b0 = false -> in_range 224 239 b0 = true ->
  in_range (if b0 =? 224 then 160 else 128) (if b0 =? 237 then 159 else 191) b1 = true ->
  is_continuation b2 = true ->
  utf8_code_points (b0 :: b1 :: b2 :: rest)
  = cons ((b0 - 224) * 4096 + cont_bits b1 * 64 + cont_bits b2) <$> utf8_code_points rest.
Proof.
  intros H1 H2 H3 H4 H5. cbn [utf8_code_points]. rewrite H1, H2, H3, H4, H5. reflexivity.
Qed.

Lemma utf8_step4 (b0 b1 b2 b3 : N) (rest : list N) :
  (b0 <? 128) = false -> in_range 194 223 b0 = false -> in_range 224 239 b0 = false ->
  in_range 240 244 b0 = true ->
  in_range (if b0 =? 240 then 144 else 128) (if b0 =? 244 then 143 else 191) b1 = true ->
  is_continuation b2 = true -> is_continuation b3 = true ->
  utf8_code_points (b0 :: b1 :: b2 :: b3 :: rest)
  = cons ((b0 - 240) * 262144 + cont_bits b1 * 4096 + cont_bits b2 * 64 + cont_bits b3)
      <$> utf8_code_points rest.
Proof.
  intros H1 H2 H3 H4 H5 H6 H7. cbn [utf8_code_points].
  rewrite H1, H2, H3, H4, H5, H6, H7. reflexivity.
Qed.

Lemma is_scalar_range (c : N) :
  is_scalar c = true <-> c < 55296 \/ (57344 <= c /\ c <= 1114111).
Proof.
  unfold is_scalar. rewrite orb_true_iff, andb_true_iff, N.ltb_lt, !N.leb_le. tauto.
Qed.

Lemma utf8_decode_encode_char (c : N) (rest : list N) :
  is_scalar c = true ->
  utf8_code_points (utf8_encode_char c ++ rest) = cons c <$> utf8_code_points rest.
Proof.
  intros Hc. apply is_scalar_range in Hc. unfold utf8_encode_char.
  destruct (N.ltb_spec c 128) as [H1|H1].
  - apply utf8_step1. solve_test.
  - destruct (N.ltb_spec c 2048) as [H2|H2].
    + split64 c q r. cbn [app].
      rewrite utf8_step2 by solve_test. unfold cont_bits. repeat f_equal. lia.
    + destruct (N.ltb_spec c 65536) as [H3|H3].
      * split64 c q1 r1. split64 q1 q2 r2. cbn [app].
        rewrite utf8_step3 by solve_test. unfold cont_bits. repeat f_equal. lia.
      * split64 c q1 r1. split64 q1 q2 r2. split64 q2 q3 r3. cbn [app].
        rewrite utf8_step4 by solve_test. unfold cont_bits. repeat f_equal. lia.
Qed.

Lemma utf8_decode_encode (s : str) :
  forallb is_scalar s = true -> utf8_code_points (utf8_encode s) = Some s.
Proof.
  induction s as [|c s IH]; intros Hs; [reflexivity|].
  simpl in Hs. apply andb_true_iff in Hs as [Hc Hs].
  change (utf8_encode (c :: s)) with (utf8_encode_char c ++ utf8_encode s).
  rewrite utf8_decode_encode_char by exact Hc. rewrite IH by exact Hs. reflexivity.
Qed.

Lemma utf8_step_inv (b0 : N) (r0 : list N) (s : str) :
  utf8_code_points (b0 :: r0) = Some s ->
  exists c rest s',
    s = c :: s'
    /\ b0 :: r0 = utf8_encode_char c ++ rest
    /\ is_scalar c = true
    /\ utf8_code_points rest = Some s'.
Proof.
  intros H. cbn [utf8_code_points] in H.
  destruct (b0 <? 128) eqn:E1.
  { destruct (utf8_code_points r0) as [s'|] eqn:E; [|discriminate H].
    injection H as <-. exists b0, r0, s'. arith_hyps.
    split; [reflexivity|]. split; [|split; [apply is_scalar_range; lia | exact E]].
    unfold utf8_encode_char. decide_tests. reflexivity. }
  destruct (in_range 194 223 b0) eqn:E2.
  { destruct r0 as [|b1 r1]; [discriminate H|].
    destruct (is_continuation b1) eqn:E3; [|discriminate H].
    destruct (utf8_code_points r1) as [s'|] eqn:E; [|discriminate H].
    injection H as <-. arith_hyps. unfold cont_bits.
    exists ((b0 - 192) * 64 + (b1 - 128)), r1, s'.
    split; [reflexivity|]. split; [|split; [apply is_scalar_range; lia | exact E]].
    unfold utf8_encode_char. decide_tests.
    split64 ((b0 - 192) * 64 + (b1 - 128)) q r. cbn [app]. repeat f_equal; lia. }
  destruct (in_range 224 239 b0) eqn:E3.
  { destruct r0 as [|b1 [|b2 r2]]; [discriminate H | discriminate H |].
    destruct (N.eqb_spec b0 224), (N.eqb_spec b0 237); try lia;
      (destruct (in_range _ _ b1 && is_continuation b2) eqn:E4; [|discriminate H]);
      (destruct (utf8_code_points r2) as [s'|] eqn:E; [|discriminate H]);
      injection H as <-; arith_hyps; unfold cont_bits;
      exists ((b0 - 224) * 4096 + (b1 - 128) * 64 + (b2 - 128)), r2, s';
      (split; [reflexivity|]);
      (split; [|split; [apply is_scalar_range; lia | exact E]]);
      unfold utf8_encode_char; decide_tests;
      split64 ((b0 - 224) * 4096 + (b1 - 128) * 64 + (b2 - 128)) q1 r1;
      split64 q1 q2 r2'; cbn [app]; repeat f_equal; lia. }
  destruct (in_range 240 244 b0) eqn:E4; [|discriminate H].
  destruct r0 as [|b1 [|b2 [|b3 r3]]]; [discriminate H | discriminate H | discriminate H |].
  destruct (N.eqb_spec b0 240), (N.eqb_spec b0 244); try lia;
    (destruct (in_range _ _ b1 && is_continuation b2 && is_continuation b3) eqn:E5;
       [|discriminate H]);
    (destruct (utf8_code_points r3) as [s'|] eqn:E; [|discriminate H]);
    injection H as <-; arith_hyps; unfold cont_bits;
    exists ((b0 - 240) * 262144 + (b1 - 128) * 4096 + (b2 - 128) * 64 + (b3 - 128)), r3, s';
    (split; [reflexivity|]);
    (split; [|split; [apply is_scalar_range; lia | exact E]]);
    unfold utf8_encode_char; decide_tests;
    split64 ((b0 - 240) * 262144 + (b1 - 128) * 4096 + (b2 - 128) * 64 + (b3 - 128)) q1 r1;
    split64 q1 q2 r2; split64 q2 q3 r3'; cbn [app]; repeat f_equal; lia.
Qed.

Lemma utf8_encode_char_nonempty (c : N) : utf8_encode_char c <> [].
Proof. unfold utf8_encode_char. decide_tests; discriminate. Qed.

Lemma utf8_code_points_inv (bs : list N) (s : str) :
  utf8_code_points bs = Some s ->
  utf8_encode s = bs /\ forallb is_scalar s = true.
Proof.
  assert (Hgen : forall (n : nat) (bs : list N) (s : str),
            (length bs <= n)%nat -> utf8_code_points bs = Some s ->
            utf8_encode s = bs /\ forallb is_scalar s = true).
  { clear bs s. induction n as [|n IH]; intros [|b0 r0] s Hlen H.
    - injection H as <-. split; reflexivity.
    - simpl in Hlen. lia.
    - injection H as <-. split; reflexivity.
    - apply utf8_step_inv in H as (c & rest & s' & -> & Heq & Hc & Hrest).
      assert (Hshort : (length rest <= n)%nat).
      { apply (f_equal (@length N)) in Heq. rewrite length_app in Heq. simpl in Heq, Hlen.
        pose proof (utf8_encode_char_nonempty c) as Hne.
        destruct (utf8_encode_char c); [congruence|]. simpl in Heq. lia. }
      destruct (IH rest s' Hshort Hrest) as [Henc Hs].
      split.
      + change (utf8_encode (c :: s')) with (utf8_encode_char c ++ utf8_encode s').
        rewrite Henc. symmetry. exact Heq.
      + simpl. rewrite Hc, Hs. reflexivity. }
  exact (Hgen (length bs) bs s (Nat.le_refl _)).
Qed.

Lemma utf8_code_points_ascii (bs : list N) :
  Forall (fun b => b < 128) bs -> utf8_code_points bs = Some bs.
Proof.
  induction 1 as [|b bs Hb _ IH]; [reflexivity|].
  rewrite utf8_step1 by (apply N.ltb_lt, Hb). rewrite IH. reflexivity.
Qed.

Section TextFileFacts.
Variable Document_paragraphs : UploadedFile -> result (list str).
Variable PdfReader_pages : UploadedFile -> result (list (option str)).

(** X14. A file declared as text extracts to a string [s] exactly when its
    bytes are the UTF-8 encoding of [s] and [s] consists of Unicode scalar
    values: well-formed UTF-8 is returned verbatim, nothing is replaced or
    dropped, and no other byte sequence is accepted. *)
Theorem text_file_extracts_iff_utf8 (file : UploadedFile) (s : str) :
  startswith (type file) (pystr "text/") = true ->
  extract_text Document_paragraphs PdfReader_pages file = Return (Some s)
  <-> forallb is_scalar s = true /\ map Byte.to_N (getvalue file) = utf8_encode s.
Proof.
  intros Htype. unfold extract_text, decode_utf8, StringIO_read.
  destruct (text_type_is_not_docx_or_pdf _ Htype) as [-> ->]. rewrite Htype.
  split.
  - destruct (utf8_code_points (map Byte.to_N (getvalue file))) as [s0|] eqn:E;
      [|discriminate].
    intros [= ->]. apply utf8_code_points_inv in E as [Henc Hs]. auto.
  - intros [Hs ->]. rewrite utf8_decode_encode by exact Hs. reflexivity.
Qed.

(** X15. A text file of ASCII bytes extracts to the same characters, one per
    byte, whatever they are (control characters included). *)
Theorem ascii_text_file_is_verbatim (file : UploadedFile) :
  startswith (type file) (pystr "text/") = true ->
  Forall (fun b => Byte.to_N b < 128) (getvalue file) ->
  extract_text Document_paragraphs PdfReader_pages file
  = Return (Some (map Byte.to_N (getvalue file))).
Proof.
  intros Htype Hascii. unfold extract_text, decode_utf8, StringIO_read.
  destruct (text_type_is_not_docx_or_pdf _ Htype) as [-> ->]. rewrite Htype.
  rewrite utf8_code_points_ascii; [reflexivity|].
  apply Forall_fmap. exact Hascii.
Qed.
End TextFileFacts.

Lemma text_file_extracts_iff_utf8_instance :
  extract_text no_docx no_pdf
    {| type := pystr "text/plain";
       getvalue := [Byte.x63; Byte.xc3; Byte.xa9; Byte.x20; Byte.xe2; Byte.x82; Byte.xac;
                    Byte.x20; Byte.xf0; Byte.x9f; Byte.x93; Byte.x9c] |}
  = Return (Some [99; 233; 32; 8364; 32; 128220]).
Proof.
  apply (text_file_extracts_iff_utf8 no_docx no_pdf); [reflexivity|].
  split; reflexivity.
Defined.

Lemma ascii_text_file_is_verbatim_instance :
  extract_text no_docx no_pdf NOTICE_FILE = Return (Some NOTICE_TEXT).
Proof.
  apply (ascii_text_file_is_verbatim no_docx no_pdf NOTICE_FILE); [reflexivity|].
  apply Forall_forall. intros b Hb. apply list_elem_of_In in Hb. vm_compute in Hb.
  repeat (destruct Hb as [<-|Hb]; [reflexivity|]). destruct Hb.
Defined.

(** ** The analysis run, from upload to display *)

Lemma bind_lift_raise {A B} (e : exn) (f : A -> script B) (w : world) :
  (lift (Raise e) ≫= f) w = (w, Raise e).
Proof. reflexivity. Qed.

Lemma for_each_show {A} (l : list A) (f : A -> ui_event) :
  forall w : world,
    for_each l (fun x => show (f x)) w
    = ({| shown := shown w ++ map f l; sent := sent w |}, Return tt).
Proof.
  induction l as [|x l IH]; intros w.
  - simpl. rewrite app_nil_r. destruct w; reflexivity.
  - change (for_each (x :: l) (fun x => show (f x)) w)
      with ((show (f x) ≫= fun _ => for_each l (fun x => show (f x))) w).
    rewrite bind_show, IH. cbn [shown sent map]. rewrite <- app_assoc. reflexivity.
Qed.

Lemma bind_for_each_show {A B} (l : list A) (f : A -> ui_event) (k : unit -> script B)
    (w : world) :
  (for_each l (fun x => show (f x)) ≫= k) w
  = k tt {| shown := shown w ++ map f l; sent := sent w |}.
Proof. unfold mbind at 1, script_bind. rewrite for_each_show. reflexivity. Qed.

Lemma check_clauses_builtin (U : unicode_db) (text : str) :
  check_clauses U text commercial_clauses = Return (report_of U text commercial_clauses)
  /\ check_clauses U text legal_clauses = Return (report_of U text legal_clauses).
Proof.
  split; apply check_clauses_keys_order; apply NoDup_keys_builtin.
Qed.

Section RunFacts.
Variable U : unicode_db.
Variable Document_paragraphs : UploadedFile -> result (list str).
Variable PdfReader_pages : UploadedFile -> result (list (option str)).
Variable completion : list request -> request -> result str.

(** The display part of [analyze], once the five answers are there. *)
Lemma analyze_success (text : str) (w : world)
    (summary obligations dates termination confidentiality : str) :
  answers_all completion (sent w) (narrative_requests text)
    [summary; obligations; dates; termination; confidentiality] ->
  analyze U completion text w
  = ({| shown := shown w ++ analysis_display U text summary obligations dates
                             termination confidentiality;
        sent := sent w ++ narrative_requests text |},
     Return tt).
Proof.
  intros (H1 & H2 & H3 & H4 & H5 & _).
  destruct (check_clauses_builtin U text) as [Hc Hl].
  unfold analyze, summarize, get_obligations, extract_important_dates,
    extract_termination_clauses, highlight_confidentiality_noncompete.
  rewrite bind_show.
  rewrite bind_create. cbn [shown sent]. rewrite H1.
  rewrite bind_create. cbn [shown sent]. rewrite H2.
  rewrite bind_create. cbn [shown sent]. rewrite H3.
  rewrite bind_create. cbn [shown sent]. rewrite H4.
  rewrite bind_create. cbn [shown sent]. rewrite H5.
  rewrite Hc, bind_lift_return, Hl, bind_lift_return.
  rewrite !bind_show, bind_for_each_show, bind_show, for_each_show.
  cbn [shown sent]. unfold analysis_display, narrative_requests.
  rewrite <- !app_assoc. reflexivity.
Qed.

(** Every run of [analyze] either gets its five answers and displays them,
    or stops at the first request that fails. *)
Lemma analyze_outcome (text : str) (w w' : world) (r : result unit) :
  analyze U completion text w = (w', r) ->
  (exists summary obligations dates termination confidentiality,
     answers_all completion (sent w) (narrative_requests text)
       [summary; obligations; dates; termination; confidentiality]
     /\ r = Return tt
     /\ w' = {| shown := shown w ++ analysis_display U text summary obligations dates
                                     termination confidentiality;
                sent := sent w ++ narrative_requests text |})
  \/ (exists (n : nat) (req : request) (e : exn),
        narrative_requests text !! n = Some req
        /\ completion (sent w ++ take n (narrative_requests text)) req = Raise e
        /\ r = Raise e
        /\ w' = {| shown := shown w ++ [st_spinner (pystr "Analyzing...")];
                   sent := sent w ++ take (S n) (narrative_requests text) |}).
Proof.
  set (r1 := summarize_request text).
  set (r2 := get_obligations_request text).
  set (r3 := extract_important_dates_request text).
  set (r4 := extract_termination_clauses_request text).
  set (r5 := highlight_confidentiality_noncompete_request text).
  destruct (completion (sent w) r1) as [a1|e] eqn:E1.
  2:{ intros H. right. exists 0%nat, r1, e.
      unfold analyze, summarize in H. fold r1 in H.
      rewrite bind_show, bind_create in H. cbn [shown sent] in H. rewrite E1 in H.
      injection H as <- <-. cbn [take]. rewrite app_nil_r. auto. }
  destruct (completion (sent w ++ [r1]) r2) as [a2|e] eqn:E2.
  2:{ intros H. right. exists 1%nat, r2, e.
      unfold analyze, summarize, get_obligations in H. fold r1 r2 in H.
      rewrite bind_show, bind_create in H. cbn [shown sent] in H. rewrite E1 in H.
      rewrite bind_create in H. cbn [shown sent] in H. rewrite E2 in H.
      injection H as <- <-. rewrite <- !app_assoc. auto. }
  destruct (completion ((sent w ++ [r1]) ++ [r2]) r3) as [a3|e] eqn:E3.
  2:{ intros H. right. exists 2%nat, r3, e.
      unfold analyze, summarize, get_obligations, extract_important_dates in H.
      fold r1 r2 r3 in H.
      rewrite bind_show, bind_create in H. cbn [shown sent] in H. rewrite E1 in H.
      rewrite bind_create in H. cbn [shown sent] in H. rewrite E2 in H.
      rewrite bind_create in H. cbn [shown sent] in H. rewrite E3 in H.
      injection H as <- <-. rewrite <- !app_assoc in *. auto. }
  destruct (completion (((sent w ++ [r1]) ++ [r2]) ++ [r3]) r4) as [a4|e] eqn:E4.
  2:{ intros H. right. exists 3%nat, r4, e.
      unfold analyze, summarize, get_obligations, extract_important_dates,
        extract_termination_clauses in H.
      fold r1 r2 r3 r4 in H.
      rewrite bind_show, bind_create in H. cbn [shown sent] in H. rewrite E1 in H.
      rewrite bind_create in H. cbn [shown sent] in H. rewrite E2 in H.
      rewrite bind_create in H. cbn [shown sent] in H. rewrite E3 in H.
      rewrite bind_create in H. cbn [shown sent] in H. rewrite E4 in H.
      injection H as <- <-. rewrite <- !app_assoc in *. auto. }
  destruct (completion ((((sent w ++ [r1]) ++ [r2]) ++ [r3]) ++ [r4]) r5) as [a5|e] eqn:E5.
  2:{ intros H. right. exists 4%nat, r5, e.
      unfold analyze, summarize, get_obligations, extract_important_dates,
        extract_termination_clauses, highlight_confidentiality_noncompete in H.
      fold r1 r2 r3 r4 r5 in H.
      rewrite bind_show, bind_create in H. cbn [shown sent] in H. rewrite E1 in H.
      rewrite bind_create in H. cbn [shown sent] in H. rewrite E2 in H.
      rewrite bind_create in H. cbn [shown sent] in H. rewrite E3 in H.
      rewrite bind_create in H. cbn [shown sent] in H. rewrite E4 in H.
      rewrite bind_create in H. cbn [shown sent] in H. rewrite E5 in H.
      injection H as <- <-. rewrite <- !app_assoc in *. auto. }
  intros H. left. exists a1, a2, a3, a4, a5.
  assert (Hall : answers_all completion (sent w) (narrative_requests text)
                   [a1; a2; a3; a4; a5]).
  { simpl. auto 10. }
  split; [exact Hall|].
  rewrite (analyze_success text w a1 a2 a3 a4 a5 Hall) in H.
  injection H as <-. auto.
Qed.
End RunFacts.

Section RunTheorems.
Variable U : unicode_db.
Variable Document_paragraphs : UploadedFile -> result (list str).
Variable PdfReader_pages : UploadedFile -> result (list (option str)).
Variable completion : list request -> request -> result str.

Lemma main_accepts (file : UploadedFile) (text : str) (button : bool) (w : world) :
  extract_text Document_paragraphs PdfReader_pages file = Return (Some text) ->
  text <> [] ->
  main U Document_paragraphs PdfReader_pages completion (Some file) button w
  = (if button then analyze U completion text else mret tt)
      {| shown := shown w ++ preview_display text; sent := sent w |}.
Proof.
  intros Hx Hne. unfold main. rewrite !bind_show, Hx, bind_lift_return.
  destruct text as [|c t]; [congruence|].
  rewrite !bind_show. cbn [shown sent]. unfold preview_display.
  rewrite <- !app_assoc. reflexivity.
Qed.


(** X17. The analysis is all or nothing.  Whatever the service does, a run on
    an accepted file with the button pressed either returns with all five
    answers displayed, or raises the failure of the first request that
    failed, with no answer and no clause line displayed and no later
    request sent. *)
Theorem analysis_is_all_or_nothing (file : UploadedFile) (text : str) (w w' : world)
    (r : result unit) :
  extract_text Document_paragraphs PdfReader_pages file = Return (Some text) ->
  text <> [] ->
  main U Document_paragraphs PdfReader_pages completion (Some file) true w = (w', r) ->
  (exists summary obligations dates termination confidentiality,
     answers_all completion (sent w) (narrative_requests text)
       [summary; obligations; dates; termination; confidentiality]
     /\ r = Return tt
     /\ shown w' = shown w ++ preview_display text
                     ++ analysis_display U text summary obligations dates
                          termination confidentiality
     /\ sent w' = sent w ++ narrative_requests text)
  \/ (exists (n : nat) (req : request) (e : exn),
        narrative_requests text !! n = Some req
        /\ completion (sent w ++ take n (narrative_requests text)) req = Raise e
        /\ r = Raise e
        /\ shown w' = shown w ++ preview_display text
                        ++ [st_spinner (pystr "Analyzing...")]
        /\ sent w' = sent w ++ take (S n) (narrative_requests text)).
Proof.
  intros Hx Hne Hrun. rewrite (main_accepts file text true w Hx Hne) in Hrun.
  apply analyze_outcome in Hrun
    as [(a1 & a2 & a3 & a4 & a5 & Hall & -> & ->) | (n & req & e & Hreq & Hfail & -> & ->)];
    cbn [shown sent] in *.
  - left. exists a1, a2, a3, a4, a5. rewrite <- app_assoc. auto.
  - right. exists n, req, e. rewrite <- app_assoc. auto.
Qed.

Lemma main_on_extraction_failure (file : UploadedFile) (button : bool) (w : world)
    (e : exn) :
  extract_text Document_paragraphs PdfReader_pages file = Raise e ->
  main U Document_paragraphs PdfReader_pages completion (Some file) button w
  = ({| shown := shown w ++ [ st_title TITLE;
                              st_spinner (pystr "Extracting text from file...") ];
        sent := sent w |},
     Raise e).
Proof.
  intros Hx. unfold main. rewrite !bind_show, Hx, bind_lift_raise.
  cbn [shown sent]. rewrite <- app_assoc. reflexivity.
Qed.

(** X18. When extraction raises, [main] does not reach its own error message:
    the exception leaves [main] after the title and the spinner, and
    nothing is sent.  So a text upload that is not valid UTF-8 ends the run
    with [UnicodeDecodeError], and a failure of the DOCX or PDF reader ends
    it with the reader's exception. *)
Theorem extraction_failure_leaves_main (file : UploadedFile) (button : bool) (w : world) :
  (forall e : exn,
     extract_text Document_paragraphs PdfReader_pages file = Raise e ->
     main U Document_paragraphs PdfReader_pages completion (Some file) button w
     = ({| shown := shown w ++ [ st_title TITLE;
                                 st_spinner (pystr "Extracting text from file...") ];
           sent := sent w |},
        Raise e))
  /\ (startswith (type file) (pystr "text/") = true ->
      utf8_code_points (map Byte.to_N (getvalue file)) = None ->
      main U Document_paragraphs PdfReader_pages completion (Some file) button w
      = ({| shown := shown w ++ [ st_title TITLE;
                                  st_spinner (pystr "Extracting text from file...") ];
            sent := sent w |},
         Raise UnicodeDecodeError))
  /\ (forall e : exn,
        type file = DOCX_TYPE -> Document_paragraphs file = Raise e ->
        main U Document_paragraphs PdfReader_pages completion (Some file) button w
        = ({| shown := shown w ++ [ st_title TITLE;
                                    st_spinner (pystr "Extracting text from file...") ];
              sent := sent w |},
           Raise e))
  /\ (forall e : exn,
        type file = PDF_TYPE -> PdfReader_pages file = Raise e ->
        main U Document_paragraphs PdfReader_pages completion (Some file) button w
        = ({| shown := shown w ++ [ st_title TITLE;
                                    st_spinner (pystr "Extracting text from file...") ];
              sent := sent w |},
           Raise e)).
Proof.
  split; [intros e; apply main_on_extraction_failure|]. split; [|split].
  - intros Htype Hbad. apply main_on_extraction_failure.
    unfold extract_text, decode_utf8.
    destruct (text_type_is_not_docx_or_pdf _ Htype) as [-> ->].
    rewrite Htype, Hbad. reflexivity.
  - intros e Htype Hdoc. apply main_on_extraction_failure.
    unfold extract_text, extract_text_from_docx. rewrite Htype, Hdoc. reflexivity.
  - intros e Htype Hpdf. apply main_on_extraction_failure.
    unfold extract_text, extract_text_from_pdf. rewrite Htype, Hpdf. reflexivity.
Qed.
End RunTheorems.

Section ScriptTheorems.
Variable U : unicode_db.
Variable Document_paragraphs : UploadedFile -> result (list str).
Variable PdfReader_pages : UploadedFile -> result (list (option str)).
Variable client : str -> list request -> request -> result str.

(** X19. Nothing is sent to the completion service unless an API key is set, a
    file was uploaded, its extracted text is non-empty and the button was
    pressed; and what is then sent is an initial part of the five requests
    for that text, in order. *)
Theorem no_request_without_analysis (api_key : option str)
    (uploaded_file : option UploadedFile) (button : bool) (w w' : world)
    (r : result unit) :
  run_script U Document_paragraphs PdfReader_pages client api_key uploaded_file button w
  = (w', r) ->
  sent w' <> sent w ->
  truthy api_key = true
  /\ button = true
  /\ exists file text n,
       uploaded_file = Some file
       /\ extract_text Document_paragraphs PdfReader_pages file = Return (Some text)
       /\ text <> []
       /\ sent w' = sent w ++ take (S n) (narrative_requests text).
Proof.
  unfold run_script. intros Hrun Hsent.
  destruct (truthy api_key) eqn:Ekey; cbn [negb] in Hrun.
  2:{ injection Hrun as <- _. cbn [sent] in Hsent. congruence. }
  destruct uploaded_file as [file|].
  2:{ unfold main in Hrun. rewrite bind_show in Hrun. injection Hrun as <- _.
      cbn [sent] in Hsent. congruence. }
  destruct (extract_text Document_paragraphs PdfReader_pages file) as [[text|]|e] eqn:Ex.
  - destruct text as [|c t].
    + rewrite (main_rejects_falsy _ _ _ _ file (Some []) button w Ex eq_refl) in Hrun.
      injection Hrun as <- _. cbn [sent rejected] in Hsent. congruence.
    + rewrite (main_accepts U _ _ _ file (c :: t) button w Ex ltac:(discriminate)) in Hrun.
      destruct button.
      2:{ injection Hrun as <- _. cbn [sent] in Hsent. congruence. }
      split; [reflexivity|]. split; [reflexivity|].
      apply analyze_outcome in Hrun
        as [(a1 & a2 & a3 & a4 & a5 & _ & _ & ->) | (n & req & e & _ & _ & _ & ->)];
        cbn [sent] in *.
      * exists file, (c :: t), 4%nat. auto.
      * exists file, (c :: t), n. auto.
  - rewrite (main_rejects_falsy _ _ _ _ file None button w Ex eq_refl) in Hrun.
    injection Hrun as <- _. cbn [sent rejected] in Hsent. congruence.
  - rewrite (main_on_extraction_failure U _ _ _ file button w e Ex) in Hrun.
    injection Hrun as <- _. cbn [sent] in Hsent. congruence.
Qed.
End ScriptTheorems.

Lemma notice_is_extracted :
  extract_text no_docx no_pdf NOTICE_FILE = Return (Some NOTICE_TEXT).
Proof. reflexivity. Qed.


(** The run in which only the dates request fails. *)
Lemma analysis_is_all_or_nothing_instance :
  exists (n : nat) (req : request) (e : exn),
    narrative_requests NOTICE_TEXT !! n = Some req
    /\ dates_fail (take n (narrative_requests NOTICE_TEXT)) req = Raise e
    /\ n = 2%nat /\ e = RemoteCallFailure (pystr "dates").
Proof.
  destruct (analysis_is_all_or_nothing ascii_only_db no_docx no_pdf dates_fail
              NOTICE_FILE NOTICE_TEXT empty_world
              {| shown := preview_display NOTICE_TEXT ++ [st_spinner (pystr "Analyzing...")];
                 sent := take 3 (narrative_requests NOTICE_TEXT) |}
              (Raise (RemoteCallFailure (pystr "dates")))
              notice_is_extracted ltac:(discriminate) ltac:(vm_compute; reflexivity))
    as [(a1 & a2 & a3 & a4 & a5 & _ & Hr & _) | (n & req & e & Hreq & Hfail & Hr & _ & Hsent)].
  - discriminate Hr.
  - exists n, req, e. split; [exact Hreq|]. split; [exact Hfail|].
    injection Hr as <-. split; [|reflexivity].
    cbn [sent empty_world app] in Hsent.
    apply (f_equal (@length request)) in Hsent.
    rewrite !length_take in Hsent. cbn in Hsent.
    apply lookup_lt_Some in Hreq. cbn in Hreq. lia.
Defined.

(** A text upload that is not valid UTF-8. *)
Lemma extraction_failure_leaves_main_instance :
  startswith (type BAD_TEXT) (pystr "text/") = true
  /\ utf8_code_points (map Byte.to_N (getvalue BAD_TEXT)) = None
  /\ main ascii_only_db no_docx no_pdf always_ok (Some BAD_TEXT) true empty_world
     = ({| shown := [ st_title TITLE; st_spinner (pystr "Extracting text from file...") ];
           sent := [] |},
        Raise UnicodeDecodeError).
Proof.
  split; [reflexivity|]. split; [reflexivity|].
  exact (proj1 (proj2 (extraction_failure_leaves_main ascii_only_db no_docx no_pdf
                         always_ok BAD_TEXT true empty_world)) eq_refl eq_refl).
Defined.

(** A complete run with a key: the five requests are the only ones sent. *)
Lemma no_request_without_analysis_instance :
  truthy (Some (pystr "sk-test")) = true
  /\ exists file text n,
       Some NOTICE_FILE = Some file
       /\ extract_text no_docx no_pdf file = Return (Some text)
       /\ text <> []
       /\ narrative_requests NOTICE_TEXT = [] ++ take (S n) (narrative_requests text).
Proof.
  destruct (no_request_without_analysis ascii_only_db no_docx no_pdf (fun _ => always_ok)
              (Some (pystr "sk-test")) (Some NOTICE_FILE) true empty_world
              {| shown := preview_display NOTICE_TEXT
                          ++ analysis_display ascii_only_db NOTICE_TEXT (pystr "ok")
                               (pystr "ok") (pystr "ok") (pystr "ok") (pystr "ok");
                 sent := narrative_requests NOTICE_TEXT |}
              (Return tt)
              ltac:(vm_compute; reflexivity) ltac:(discriminate))
    as (Hkey & _ & Hrest).
  split; [exact Hkey | exact Hrest].
Defined.

(** X20. A request tells which of the five operations sent it and for which
    document: no two operations, and no two documents, ever produce the
    same request. *)
Theorem request_determines_operation_and_document (text1 text2 : str) (i j : nat)
    (req : request) :
  narrative_requests text1 !! i = Some req ->
  narrative_requests text2 !! j = Some req ->
  i = j /\ text1 = text2.
Proof.
  intros H1 H2.
  destruct i as [|[|[|[|[|i]]]]]; try discriminate H1;
    destruct j as [|[|[|[|[|j]]]]]; try discriminate H2;
    rewrite <- H1 in H2; vm_compute in H2; try discriminate H2;
    injection H2 as ->; split; reflexivity.
Qed.

Lemma request_determines_operation_and_document_instance :
  narrative_requests NOTICE_TEXT !! 2%nat
  = Some (extract_important_dates_request NOTICE_TEXT)
  /\ (2 = 2)%nat /\ NOTICE_TEXT = NOTICE_TEXT.
Proof.
  split; [reflexivity|].
  exact (request_determines_operation_and_document NOTICE_TEXT NOTICE_TEXT 2 2
           (extract_important_dates_request NOTICE_TEXT) eq_refl eq_refl).
Defined.

(** X21. The preview is the text itself when it has at most 2000 characters,
    and otherwise its first 2000 characters followed by three dots; it
    never has more than 2003 characters and always starts like the text. *)
Theorem preview_is_bounded (text : str) :
  (length (preview text) <= 2003)%nat
  /\ ((length text <= 2000)%nat -> preview text = text)
  /\ ((2000 < length text)%nat ->
      preview text = take 2000 text ++ pystr "..."
      /\ length (preview text) = 2003%nat)
  /\ take 2000 (preview text) = take 2000 text.
Proof.
  unfold preview.
  assert (Hdots : length (pystr "...") = 3%nat) by reflexivity.
  destruct (Nat.ltb_spec 2000 (length text)) as [Hlong|Hshort].
  - rewrite length_app, length_take, Hdots.
    split; [lia|]. split; [lia|]. split; [intros _; split; [reflexivity | lia]|].
    rewrite take_app_le by (rewrite length_take; lia).
    apply take_take.
  - rewrite app_nil_r, !take_ge by lia.
    split; [lia|]. split; [reflexivity|]. split; [lia | reflexivity].
Qed.

Lemma preview_is_bounded_instance :
  (length NOTICE_TEXT <= 2000)%nat /\ preview NOTICE_TEXT = NOTICE_TEXT.
Proof.
  assert (Hlen : (length NOTICE_TEXT <= 2000)%nat) by (vm_compute; lia).
  split; [exact Hlen|].
  exact (proj1 (proj2 (preview_is_bounded NOTICE_TEXT)) Hlen).
Defined.

(** ** More on what the clause checker finds *)

(** X7. For a clause whose phrases all begin and end with a word character,
    the clause is marked present exactly when one of the phrases occurs in
    the lower-cased text with no word character next to it on either side
    (punctuation, spaces and the ends of the text all do). *)
Theorem present_iff_whole_phrase (U : unicode_db) (text : str) (T : dict (list str))
    (clause : str) (keywords : list str) :
  NoDup (keys T) ->
  dict_get T clause = Some keywords ->
  (forall phrase, phrase ∈ keywords -> word_delimited U phrase) ->
  exists R : dict bool,
    check_clauses U text T = Return R
    /\ (dict_get R clause = Some true
        <-> exists phrase,
              phrase ∈ keywords /\ whole_phrase_match U phrase (str_lower U text)).
Proof.
  intros Hnd Hget Hdelim.
  exists (report_from U (str_lower U text) T []).
  split; [apply check_clauses_report|].
  rewrite report_from_get, Hget by exact Hnd.
  split.
  - intros [= H]. apply clause_present_spec in H as (phrase & Hin & Hocc).
    exists phrase. split; [exact Hin|].
    apply whole_phrase_of_boundaries; [exact (Hdelim phrase Hin) | exact Hocc].
  - intros (phrase & Hin & Hocc). f_equal. apply clause_present_spec.
    exists phrase. split; [exact Hin|].
    apply whole_phrase_of_boundaries; [exact (Hdelim phrase Hin) | exact Hocc].
Qed.

Lemma present_iff_whole_phrase_instance :
  exists R : dict bool,
    check_clauses ascii_only_db (pystr "Liability cap: none.") legal_clauses = Return R
    /\ (dict_get R (pystr "Limitation of Liability") = Some true
        <-> exists phrase,
              phrase ∈ [pystr "limitation of liability"; pystr "liability cap";
                        pystr "liability limit"]
              /\ whole_phrase_match ascii_only_db phrase
                   (str_lower ascii_only_db (pystr "Liability cap: none."))).
Proof.
  apply (present_iff_whole_phrase ascii_only_db (pystr "Liability cap: none.")
           legal_clauses (pystr "Limitation of Liability")).
  - exact (proj2 NoDup_keys_builtin).
  - reflexivity.
  - intros phrase Hin.
    apply (builtin_phrases_word_delimited ascii_only_db (pystr "Limitation of Liability")
             [pystr "limitation of liability"; pystr "liability cap"; pystr "liability limit"]);
      [|exact Hin].
    apply elem_of_app. right. do 3 apply list_elem_of_further. apply list_elem_of_here.
Defined.

(** X8. Adding synonyms to a clause never loses a hit: if a clause is marked
    present with some synonyms, it is marked present with any list that
    contains them. *)
Theorem more_synonyms_keep_the_clause (U : unicode_db) (text : str)
    (T1 T2 : dict (list str)) (clause : str) (keywords1 keywords2 : list str) :
  NoDup (keys T1) ->
  NoDup (keys T2) ->
  dict_get T1 clause = Some keywords1 ->
  dict_get T2 clause = Some keywords2 ->
  keywords1 ⊆ keywords2 ->
  exists R1 R2 : dict bool,
    check_clauses U text T1 = Return R1
    /\ check_clauses U text T2 = Return R2
    /\ (dict_get R1 clause = Some true -> dict_get R2 clause = Some true).
Proof.
  intros Hnd1 Hnd2 Hget1 Hget2 Hsub.
  exists (report_from U (str_lower U text) T1 []), (report_from U (str_lower U text) T2 []).
  split; [apply check_clauses_report|]. split; [apply check_clauses_report|].
  rewrite !report_from_get, Hget1, Hget2 by assumption.
  intros [= H]. f_equal.
  apply clause_present_spec in H as (phrase & Hin & Hocc).
  apply clause_present_spec. exists phrase. split; [apply Hsub, Hin | exact Hocc].
Qed.

Lemma more_synonyms_keep_the_clause_instance :
  exists R1 R2 : dict bool,
    check_clauses ascii_only_db LEGAL_SCENARIO [(pystr "Confidentiality", [pystr "nda"])]
    = Return R1
    /\ check_clauses ascii_only_db LEGAL_SCENARIO legal_clauses = Return R2
    /\ (dict_get R1 (pystr "Confidentiality") = Some true ->
        dict_get R2 (pystr "Confidentiality") = Some true).
Proof.
  apply (more_synonyms_keep_the_clause ascii_only_db LEGAL_SCENARIO
           [(pystr "Confidentiality", [pystr "nda"])] legal_clauses
           (pystr "Confidentiality") [pystr "nda"]
           [pystr "confidentiality"; pystr "non-disclosure"; pystr "nda"]).
  - apply NoDup_singleton.
  - exact (proj2 NoDup_keys_builtin).
  - reflexivity.
  - reflexivity.
  - intros phrase Hin. apply list_elem_of_singleton in Hin. subst phrase.
    do 2 apply list_elem_of_further. apply list_elem_of_here.
Defined.

Lemma str_lower_app_ascii (U : unicode_db) (a b : str) :
  forallb is_ascii a = true -> forallb is_ascii b = true ->
  str_lower U (a ++ b) = str_lower U a ++ str_lower U b.
Proof.
  intros Ha Hb. unfold str_lower. rewrite forallb_app, Ha, Hb. apply map_app.
Qed.

Lemma occurs_in_spaced_context (U : unicode_db) (kw s before after : str) :
  occurs_at_word_boundaries U kw s ->
  occurs_at_word_boundaries U kw (before ++ [32] ++ s ++ [32] ++ after).
Proof.
  intros (pre & post & -> & Hl & Hr).
  exists (before ++ [32] ++ pre), (post ++ [32] ++ after).
  split; [rewrite <- !app_assoc; reflexivity|].
  assert (Hspace : word_side U (Some 32) = false) by reflexivity.
  split.
  - replace (word_side U (last (before ++ [32] ++ pre))) with (word_side U (last pre)).
    + destruct kw as [|c kw]; [|exact Hl].
      simpl in *. destruct post as [|d post]; [|exact Hl].
      simpl in *. exact Hl.
    + rewrite !last_app. destruct (last pre); reflexivity.
  - replace (word_side U (last ((before ++ [32] ++ pre) ++ kw)))
      with (word_side U (last (pre ++ kw))).
    + destruct post as [|d post]; [|exact Hr]. simpl in *. exact Hr.
    + rewrite !last_app. destruct (last kw); [reflexivity|].
      destruct (last pre); reflexivity.
Qed.

(** X9. Embedding an ASCII text in a longer one, set off by spaces, loses no
    clause: every clause marked present in the text is marked present in
    the longer text. *)
Theorem surrounding_text_keeps_clauses (U : unicode_db) (text before after : str)
    (T : dict (list str)) (clause : str) :
  NoDup (keys T) ->
  forallb is_ascii text = true ->
  forallb is_ascii before = true ->
  forallb is_ascii after = true ->
  exists R R' : dict bool,
    check_clauses U text T = Return R
    /\ check_clauses U (before ++ pystr " " ++ text ++ pystr " " ++ after) T = Return R'
    /\ (dict_get R clause = Some true -> dict_get R' clause = Some true).
Proof.
  intros Hnd Ht Hb Ha.
  eexists _, _. split; [apply check_clauses_report|]. split; [apply check_clauses_report|].
  rewrite !report_from_get by exact Hnd.
  destruct (dict_get T clause) as [keywords|]; [|discriminate].
  intros [= H]. f_equal.
  apply clause_present_spec in H as (phrase & Hin & Hocc).
  apply clause_present_spec. exists phrase. split; [exact Hin|].
  assert (Hsp : forallb is_ascii (pystr " ") = true) by reflexivity.
  rewrite !str_lower_app_ascii; try assumption;
    try (rewrite !forallb_app, ?Ht, ?Ha, ?Hsp; reflexivity).
  apply (occurs_in_spaced_context U phrase (str_lower U text)
           (str_lower U before) (str_lower U after)).
  exact Hocc.
Qed.

Lemma surrounding_text_keeps_clauses_instance :
  exists R R' : dict bool,
    check_clauses ascii_only_db (pystr "an NDA") legal_clauses = Return R
    /\ check_clauses ascii_only_db
         (pystr "Annex:" ++ pystr " " ++ pystr "an NDA" ++ pystr " " ++ pystr "(signed)")
         legal_clauses = Return R'
    /\ (dict_get R (pystr "Confidentiality") = Some true ->
        dict_get R' (pystr "Confidentiality") = Some true).
Proof.
  apply (surrounding_text_keeps_clauses ascii_only_db (pystr "an NDA") (pystr "Annex:")
           (pystr "(signed)") legal_clauses (pystr "Confidentiality")).
  - exact (proj2 NoDup_keys_builtin).
  - reflexivity.
  - reflexivity.
  - reflexivity.
Defined.


(** ** Extractions that yield no text *)

Lemma join_page_texts_nil (pages : list (option str)) :
  join NEWLINE (nonempty_page_texts pages) = []
  <-> Forall (fun p => truthy p = false) pages.
Proof.
  rewrite <- nonempty_page_texts_nil. split.
  - intros H. apply join_nil_iff in H as [H|H]; [exact H|].
    assert (Hin : [] ∈ nonempty_page_texts pages) by (rewrite H; apply list_elem_of_here).
    apply elem_of_nonempty_page_texts in Hin as [_ Hne]. congruence.
  - intros ->. reflexivity.
Qed.

Lemma decode_utf8_nil (b : bytes) : decode_utf8 b = Return [] <-> b = [].
Proof.
  unfold decode_utf8. split.
  - destruct (utf8_code_points (map Byte.to_N b)) as [s|] eqn:E; [|discriminate].
    intros [= ->]. apply utf8_code_points_inv in E as [Henc _].
    destruct b; [reflexivity | discriminate Henc].
  - intros ->. reflexivity.
Qed.

Section EmptyExtraction.
Variable U : unicode_db.
Variable Document_paragraphs : UploadedFile -> result (list str).
Variable PdfReader_pages : UploadedFile -> result (list (option str)).
Variable completion : list request -> request -> result str.

(** C6 (amended). For each recognised media type, an extraction that
    yields no text returns the empty string, not [None]: a PDF extracts
    to the empty string exactly when every page has an empty or absent
    text, a DOCX exactly when it has no paragraph or a single empty one,
    a text file exactly when it has no byte.  [main] then does with the
    empty string exactly what it does with [None]: it shows the error
    message and stops, with no preview and no request sent. *)
Theorem empty_extraction_is_rejected_by_main (file : UploadedFile) (button : bool)
    (w : world) :
  (forall pages : list (option str),
     type file = PDF_TYPE ->
     PdfReader_pages file = Return pages ->
     extract_text Document_paragraphs PdfReader_pages file = Return (Some [])
     <-> Forall (fun p => truthy p = false) pages)
  /\ (forall paragraphs : list str,
        type file = DOCX_TYPE ->
        Document_paragraphs file = Return paragraphs ->
        extract_text Document_paragraphs PdfReader_pages file = Return (Some [])
        <-> paragraphs = [] \/ paragraphs = [[]])
  /\ (startswith (type file) (pystr "text/") = true ->
      extract_text Document_paragraphs PdfReader_pages file = Return (Some [])
      <-> getvalue file = [])
  /\ (extract_text Document_paragraphs PdfReader_pages file = Return (Some []) ->
      main U Document_paragraphs PdfReader_pages completion (Some file) button w
      = (rejected w, Return tt))
  /\ (forall other : UploadedFile,
        extract_text Document_paragraphs PdfReader_pages other = Return None ->
        main U Document_paragraphs PdfReader_pages completion (Some other) button w
        = (rejected w, Return tt)).
Proof.
  split; [|split; [|split; [|split]]].
  - intros pages Htype Hpages.
    unfold extract_text, extract_text_from_pdf. rewrite Htype, Hpages.
    change (str_eqb PDF_TYPE DOCX_TYPE) with false.
    change (str_eqb PDF_TYPE PDF_TYPE) with true.
    cbn [mbind result_bind]. rewrite pdf_loop_spec. cbn [app].
    rewrite <- join_page_texts_nil.
    split; [intros [= ->]; reflexivity | intros ->; reflexivity].
  - intros paragraphs Htype Hdoc.
    unfold extract_text, extract_text_from_docx. rewrite Htype, Hdoc.
    change (str_eqb DOCX_TYPE DOCX_TYPE) with true.
    cbn [mbind result_bind]. rewrite <- join_nil_iff.
    split; [intros [= ->]; reflexivity | intros ->; reflexivity].
  - intros Htype. unfold extract_text, StringIO_read.
    destruct (text_type_is_not_docx_or_pdf _ Htype) as [-> ->]. rewrite Htype.
    rewrite <- decode_utf8_nil.
    destruct (decode_utf8 (getvalue file)) as [s|e]; cbn [mbind result_bind].
    + split; [intros [= ->]; reflexivity | intros [= ->]; reflexivity].
    + split; discriminate.
  - intros Hx. apply main_rejects_falsy with (text := Some []); [exact Hx | reflexivity].
  - intros other Hnone.
    apply main_rejects_falsy with (text := None); [exact Hnone | reflexivity].
Qed.
End EmptyExtraction.

(** A PDF of two blank pages, a DOCX of one empty paragraph and a text
    file without a byte. *)
Lemma empty_extraction_is_rejected_by_main_witness :
  (extract_text no_docx blank_pages BLANK_PDF = Return (Some [])
   /\ main ascii_only_db no_docx blank_pages dates_fail (Some BLANK_PDF) true empty_world
      = (rejected empty_world, Return tt))
  /\ (extract_text (docx_of [[]]) no_pdf DOCX_FILE = Return (Some [])
      /\ main ascii_only_db (docx_of [[]]) no_pdf dates_fail (Some DOCX_FILE) true empty_world
         = (rejected empty_world, Return tt))
  /\ (extract_text no_docx no_pdf EMPTY_TEXT_FILE = Return (Some [])
      /\ main ascii_only_db no_docx no_pdf dates_fail (Some EMPTY_TEXT_FILE) true empty_world
         = (rejected empty_world, Return tt)).
Proof.
  split; [|split].
  - destruct (empty_extraction_is_rejected_by_main ascii_only_db no_docx blank_pages
                dates_fail BLANK_PDF true empty_world) as (Hpdf & _ & _ & Hmain & _).
    assert (Hx : extract_text no_docx blank_pages BLANK_PDF = Return (Some [])).
    { apply (Hpdf [None; Some []] eq_refl eq_refl). repeat constructor. }
    split; [exact Hx | exact (Hmain Hx)].
  - destruct (empty_extraction_is_rejected_by_main ascii_only_db (docx_of [[]]) no_pdf
                dates_fail DOCX_FILE true empty_world) as (_ & Hdocx & _ & Hmain & _).
    assert (Hx : extract_text (docx_of [[]]) no_pdf DOCX_FILE = Return (Some [])).
    { apply (Hdocx [[]] eq_refl eq_refl). right. reflexivity. }
    split; [exact Hx | exact (Hmain Hx)].
  - destruct (empty_extraction_is_rejected_by_main ascii_only_db no_docx no_pdf
                dates_fail EMPTY_TEXT_FILE true empty_world) as (_ & _ & Htext & Hmain & _).
    assert (Hx : extract_text no_docx no_pdf EMPTY_TEXT_FILE = Return (Some [])).
    { apply (Htext eq_refl). reflexivity. }
    split; [exact Hx | exact (Hmain Hx)].
Defined.
